(** * whclient: the webhooktunnel client's connection state machine

    A shallow embedding of [whclient/client.go]: the dial classifier
    ([shouldRetry], [isAuthError]), the connector ([connectWithRetry],
    [retryConn]) and the client operations ([New], [URL], [Accept], [Close],
    [reconnect]).

    Conventions of the embedding.
    - A Go [int] status code and a [time.Duration] are integers of [Z]; the
      only arithmetic on a status code is the truncating division by 100
      ([Z.quot]), which cannot overflow.
    - A [*http.Response] that may be [nil] is an [option Response]; the
      header bag is a finite map from canonical keys to value lists.
    - The network, the configurer, the clock and the scheduler are the
      environment: their answers are inputs ([World]), and what the code asks
      of them is written to an event list ([Event]).
    - The mutex [c.m] makes the locked region of every operation atomic, so a
      locked region is a function from client to client; goroutines started
      with [go], and callers that are between the [select] and the rest of
      [Accept] or [Close], are recorded as pending and run later.
    - Calls to the logger have no effect on the client and are left out. *)

From Stdlib Require Import ZArith Lia Bool List.
From stdpp Require Import base gmap strings list.
Import ListNotations.
Local Open Scope Z_scope.

(** ** Data model *)

(** [clientState] with its three constants [stateRunning], [stateBroken],
    [stateClosed] (an [iota] enumeration). *)
Inductive clientState : Set :=
| stateRunning
| stateBroken
| stateClosed.

(** Modelled from the spec: the error values [ErrClientClosed],
    [ErrClientReconnecting], [ErrAuthFailed], [ErrRetryFailed] and
    [ErrRetryTimedOut] are used by client.go but declared in a file that is
    not part of the sources; section 7 of the specification lists them as five
    different errors. *)
Inductive netError : Set :=
| ErrClientClosed
| ErrClientReconnecting
| ErrAuthFailed
| ErrRetryFailed
| ErrRetryTimedOut.

(** Modelled from the spec: [RetryConfig] is declared outside client.go; the
    record keeps the two fields client.go reads. Its methods [defaultValues]
    and [nextDelay] are parameters, see [External]. *)
Record RetryConfig : Set := mkRetryConfig {
  InitialDelay : Z;
  MaxElapsedTime : Z
}.

(** [Config] without its logger. *)
Record Config : Set := mkConfig {
  ID : string;
  ProxyAddr : string;
  Token : string;
  Retry : RetryConfig
}.

(** The part of [http.Response] the client reads. *)
Record Response : Type := mkResponse {
  StatusCode : Z;
  Header : gmap string (list string)
}.

(** A [*websocket.Conn] and an accepted stream are known by their identity. *)
Definition Conn : Set := nat.
Definition Stream : Set := nat.

(** [wsmux.Config] and the session [wsmux.Client] builds from a connection. *)
Record wsmuxConfig : Set := mkWsmuxConfig { StreamBufferSize : Z }.

Record Session : Set := mkSession {
  sessConn : Conn;
  sessConfig : wsmuxConfig
}.

#[global] Instance wsmuxConfig_eq_dec : EqDecision wsmuxConfig.
Proof. solve_decision. Defined.

#[global] Instance Session_eq_dec : EqDecision Session.
Proof. solve_decision. Defined.

Definition wsmux_Client (conn : Conn) (config : wsmuxConfig) : Session :=
  mkSession conn config.

(** The [Client] struct. [url] is the [atomic.Value] (nothing stored yet is
    [None]); [closed] tells whether the channel [c.closed] has been closed;
    [acceptErr] may be [nil]. The mutex, the logger and the configurer (a Go
    closure, answered by the environment) have no field. *)
Record Client : Type := mkClient {
  id : string;
  proxyAddr : string;
  token : string;
  url : option string;
  retry : RetryConfig;
  session : option Session;
  state : clientState;
  closed : bool;
  acceptErr : option netError
}.

Definition set_url (u : string) (c : Client) : Client :=
  mkClient (id c) (proxyAddr c) (token c) (Some u) (retry c) (session c)
           (state c) (closed c) (acceptErr c).

Definition set_session (s : option Session) (c : Client) : Client :=
  mkClient (id c) (proxyAddr c) (token c) (url c) (retry c) s
           (state c) (closed c) (acceptErr c).

Definition set_state (st : clientState) (c : Client) : Client :=
  mkClient (id c) (proxyAddr c) (token c) (url c) (retry c) (session c)
           st (closed c) (acceptErr c).

Definition set_closed (b : bool) (c : Client) : Client :=
  mkClient (id c) (proxyAddr c) (token c) (url c) (retry c) (session c)
           (state c) b (acceptErr c).

Definition set_acceptErr (e : option netError) (c : Client) : Client :=
  mkClient (id c) (proxyAddr c) (token c) (url c) (retry c) (session c)
           (state c) (closed c) e.

(** Goroutines the client starts: [go c.reconnect()] in [Accept] and the
    anonymous clean-up function in [Close]. *)
Inductive Task : Set :=
| TaskReconnect
| TaskCloseCleanup.

(** What the code asks of its environment, in program order. *)
Inductive Event : Type :=
| EvConfigurer
| EvDial (at_time : Z) (addr : string) (header : list (string * string))
| EvSessionAccept (s : Session)
| EvSessionClose (s : Session)
| EvCloseChan
| EvGo (t : Task).

(** ** Dial classifier *)

Definition shouldRetry (r : option Response) : bool :=
  match r with
  | None => true
  | Some r =>
      if (StatusCode r ÷ 100 =? 4) || (StatusCode r ÷ 100 =? 2)
      then false
      else true
  end.

Definition isAuthError (r : option Response) : bool :=
  match r with
  | None => false
  | Some r => StatusCode r =? 401
  end.

(** ** Code outside client.go *)

(** Functions of other packages and files that client.go calls:
    [util.IsTokenUsable], [util.MakeWsURL], the [RetryConfig] methods
    [defaultValues] and [nextDelay], and the key canonicalisation that
    [http.Header.Get] applies. *)
Class External : Type := {
  IsTokenUsable : string -> bool;
  MakeWsURL : string -> string;
  defaultValues : RetryConfig -> RetryConfig;
  nextDelay : RetryConfig -> Z -> Z;
  CanonicalMIMEHeaderKey : string -> string
}.

(** Answers of the environment. *)
Inductive ConfigurerResult : Set :=
| CfgOk (config : Config)
| CfgErr.

(** [websocket.DefaultDialer.Dial] returns a connection and the handshake
    response, or an error with the response if the relay sent one. *)
Inductive DialResult : Type :=
| DialOk (conn : Conn) (res : Response)
| DialErr (res : option Response).

(** One invocation of the connector sees: the configurer's answer (if it
    asks), the answer and the duration (nanoseconds) of its k-th dial, the
    time at which it starts, and, when a [select] finds both timer channels
    ready, which case the runtime picks ([true]: the budget timer). *)
Record World : Type := mkWorld {
  cfgResult : ConfigurerResult;
  dialResult : nat -> DialResult;
  dialTime : nat -> nat;
  pickMax : nat -> bool;
  startTime : Z
}.

(** The triple a connector returns is [(conn, url, nil)] or [(nil, "", err)]. *)
Inductive ConnResult : Set :=
| ConnOk (conn : Conn) (url : string)
| ConnErr (err : netError).

Section Whclient.

Context {ext : External}.

(** [http.Header.Get]: first value under the canonical key, or the empty
    string. *)
Definition Header_Get (h : gmap string (list string)) (key : string) : string :=
  match h !! CanonicalMIMEHeaderKey key with
  | Some (v :: _) => v
  | _ => EmptyString
  end.

Definition setConfig (config : Config) (c : Client) : Client :=
  mkClient (ID config) (MakeWsURL (ProxyAddr config)) (Token config)
           (url c) (defaultValues (Retry config)) (session c)
           (state c) (closed c) (acceptErr c).

(** The request headers of both dials. *)
Definition dialHeader (c : Client) : list (string * string) :=
  [("Authorization"%string, String.append "Bearer " (token c));
   ("x-webhooktunnel-id"%string, id c)].

(** ** Connector *)

(** The two timer channels of [retryConn]. [time.After d] delivers on its
    channel [d] nanoseconds after the call (at once when [d <= 0]), so a timer
    is the instant at which its channel becomes ready. A [select] entered at
    [now] over the channels [maxTimer] and [backoff] blocks until the first
    instant [wake >= now] at which one of them is ready; if both are ready
    then, the runtime picks one of the two cases ([pick]); if the budget timer
    is not ready at [wake], the delay timer is. The result is the case taken
    and the instant at which it is taken. Instants are not bounded (no
    wrap-around of the 64-bit clock). *)
Inductive Fired : Set :=
| FiredMaxTimer
| FiredBackoff.

Definition selectTimers (now maxAt backoffAt : Z) (pick : bool) : Fired * Z :=
  let wake := Z.max now (Z.min maxAt backoffAt) in
  match maxAt <=? wake, backoffAt <=? wake with
  | true, true => (if pick then FiredMaxTimer else FiredBackoff, wake)
  | true, false => (FiredMaxTimer, wake)
  | false, _ => (FiredBackoff, wake)
  end.

(** The [for { select { ... } }] loop of [retryConn]: [k] numbers the dial the
    next [backoff] case would make, [now] is the instant at which the
    [select] is entered. [None] only when [fuel] iterations were not enough. *)
Fixpoint retryLoop (fuel : nat) (w : World) (c : Client) (maxAt : Z) (k : nat)
    (now currentDelay backoffAt : Z) : option (ConnResult * list Event) :=
  match fuel with
  | O => None
  | S fuel' =>
      match selectTimers now maxAt backoffAt (pickMax w k) with
      | (FiredMaxTimer, _) => Some (ConnErr ErrRetryTimedOut, [])
      | (FiredBackoff, t) =>
          let ev := EvDial t (proxyAddr c) (dialHeader c) in
          match dialResult w k with
          | DialOk conn res =>
              Some (ConnOk conn
                      (Header_Get (Header res) "x-webhooktunnel-client-url"),
                    [ev])
          | DialErr res =>
              if negb (shouldRetry res)
              then Some (ConnErr ErrRetryFailed, [ev])
              else
                let now' := t + Z.of_nat (dialTime w k) in
                let currentDelay' := nextDelay (retry c) currentDelay in
                match retryLoop fuel' w c maxAt (S k) now' currentDelay'
                        (now' + currentDelay') with
                | Some (r, evs) => Some (r, ev :: evs)
                | None => None
                end
          end
      end
  end.

(** [retryConn], entered at instant [now]; the dial of attempt 0 was the
    immediate one of [connectWithRetry]. *)
Definition retryConn (fuel : nat) (w : World) (c : Client) (now : Z)
    : option (ConnResult * list Event) :=
  let currentDelay := InitialDelay (retry c) in
  let maxAt := now + MaxElapsedTime (retry c) in
  let backoffAt := now + currentDelay in
  retryLoop fuel w c maxAt 1 now currentDelay backoffAt.

(** [connectWithRetry] from its "initial connection" comment on. *)
Definition dialFirst (fuel : nat) (w : World) (c : Client)
    : option (ConnResult * list Event) :=
  let ev := EvDial (startTime w) (proxyAddr c) (dialHeader c) in
  match dialResult w 0 with
  | DialErr res =>
      if shouldRetry res then
        match retryConn fuel w c (startTime w + Z.of_nat (dialTime w 0)) with
        | Some (r, evs) => Some (r, ev :: evs)
        | None => None
        end
      else if isAuthError res then Some (ConnErr ErrAuthFailed, [ev])
      else Some (ConnErr ErrRetryFailed, [ev])
  | DialOk conn res =>
      Some (ConnOk conn (Header_Get (Header res) "x-webhooktunnel-client-url"),
            [ev])
  end.

(** [connectWithRetry]: the client after the call (its configuration may have
    been replaced), the returned triple and the events. *)
Definition connectWithRetry (fuel : nat) (w : World) (c : Client)
    : option (Client * ConnResult * list Event) :=
  if negb (IsTokenUsable (token c)) then
    match cfgResult w with
    | CfgErr => Some (c, ConnErr ErrRetryFailed, [EvConfigurer])
    | CfgOk config =>
        let c' := setConfig config c in
        match dialFirst fuel w c' with
        | Some (r, evs) => Some (c', r, EvConfigurer :: evs)
        | None => None
        end
    end
  else
    match dialFirst fuel w c with
    | Some (r, evs) => Some (c, r, evs)
    | None => None
    end.

(** Fuel that is enough for the retry loop of a client whose delays are
    positive: the budget in nanoseconds, plus one. *)
Definition retryFuel (c : Client) : nat :=
  S (Z.to_nat (MaxElapsedTime (retry c))).

(** ** Client operations *)

(** [&Client{configurer: configurer}]: every other field has its zero value. *)
Definition emptyClient : Client :=
  mkClient EmptyString EmptyString EmptyString None (mkRetryConfig 0 0) None
           stateRunning false None.

(** What [New] returns besides a client: the configurer's own error or the
    connector's. *)
Inductive NewError : Set :=
| NewConfigurerErr
| NewConnectErr (err : netError).

(** [New]: [first] is the answer to its own call of the configurer. *)
Definition New (fuel : nat) (first : ConfigurerResult) (w : World)
    : option ((Client + NewError) * list Event) :=
  match first with
  | CfgErr => Some (inr NewConfigurerErr, [EvConfigurer])
  | CfgOk config =>
      let cl := setConfig config emptyClient in
      match connectWithRetry fuel w cl with
      | None => None
      | Some (_, ConnErr err, evs) =>
          Some (inr (NewConnectErr err), EvConfigurer :: evs)
      | Some (cl, ConnOk conn url, evs) =>
          let cl := set_url url cl in
          let cl := set_session (Some (wsmux_Client conn (mkWsmuxConfig 0))) cl in
          Some (inl cl, EvConfigurer :: evs)
      end
  end.

(** [URL]: [None] is the panic of the type assertion when nothing was
    stored. *)
Definition URL (c : Client) : option string := url c.

(** [Accept] from [c.m.Lock()] on. [sa s] is what [s.Accept()] answers: a
    stream, or [None] for an error. The result is the pair
    [(net.Conn, error)]; [None] is the panic of calling [Accept] on a nil
    session. *)
Definition acceptLocked (sa : Session -> option Stream) (c : Client)
    : option (Client * (option Stream * option netError) * list Event) :=
  match state c with
  | stateBroken | stateClosed => Some (c, (None, acceptErr c), [])
  | stateRunning =>
      match session c with
      | None => None
      | Some s =>
          match sa s with
          | Some stream => Some (c, (Some stream, None), [EvSessionAccept s])
          | None =>
              let c := set_state stateBroken c in
              let c := set_acceptErr (Some ErrClientReconnecting) c in
              Some (c, (None, acceptErr c),
                    [EvSessionAccept s; EvGo TaskReconnect])
          end
      end
  end.

(** [Accept]: the [select] on [c.closed], then the locked region. *)
Definition Accept (sa : Session -> option Stream) (c : Client)
    : option (Client * (option Stream * option netError) * list Event) :=
  if closed c then Some (c, (None, Some ErrClientClosed), [])
  else acceptLocked sa c.

(** The [default] case of the [select] in [Close]; [None] is the panic of
    closing a channel that is closed already. *)
Definition closeDefault (c : Client)
    : option (Client * option netError * list Event) :=
  if closed c then None
  else Some (set_closed true c, None, [EvCloseChan; EvGo TaskCloseCleanup]).

(** [Close], the caller's part: the [select], then its [default] case. *)
Definition Close (c : Client)
    : option (Client * option netError * list Event) :=
  if closed c then Some (c, None, [])
  else closeDefault c.

(** The goroutine [Close] starts; [None] is the panic of closing a nil
    session. *)
Definition closeCleanup (c : Client) : option (Client * list Event) :=
  let c := set_acceptErr (Some ErrClientClosed) c in
  match session c with
  | None => None
  | Some s => Some (c, [EvSessionClose s])
  end.

(** [reconnect]; [None] only when the connector ran out of fuel. *)
Definition reconnect (fuel : nat) (w : World) (c : Client)
    : option (Client * list Event) :=
  match connectWithRetry fuel w c with
  | None => None
  | Some (c, ConnErr _, evs) =>
      Some (set_acceptErr (Some ErrRetryFailed) c, evs)
  | Some (c, ConnOk conn url, evs) =>
      let '(c, closing) :=
        match session c with
        | Some s => (set_session None c, [EvSessionClose s])
        | None => (c, [])
        end in
      let sessionConfig := mkWsmuxConfig (4 * 1024) in
      let c := set_session (Some (wsmux_Client conn sessionConfig)) c in
      let c := set_url url c in
      let c := set_state stateRunning c in
      let c := set_acceptErr None c in
      Some (c, evs ++ closing)
  end.

(** ** The client with its goroutines and callers *)

(** Code that was started and has not run yet: a goroutine, a caller of
    [Accept] that is past the [select] and has not entered the locked region,
    a caller of [Close] that is past the [select] and has not closed the
    channel. *)
Inductive Thread : Set :=
| Goroutine (t : Task)
| InAccept
| InClose.

Record System : Type := mkSystem {
  client : Client;
  pending : list Thread
}.

Definition spawned (evs : list Event) : list Thread :=
  omap (fun e => match e with EvGo t => Some (Goroutine t) | _ => None end) evs.

(** A step. [CallAccept] and [CallClose] are whole calls that nothing
    interrupts; [EnterAccept] and [EnterClose] are the [select] of a call that
    [Resume] continues later; [RunTask] lets the scheduler run the [i]-th
    pending goroutine (a [reconnect] takes its fuel and its world). *)
Inductive Call : Type :=
| CallAccept (sa : Session -> option Stream)
| CallClose
| EnterAccept
| EnterClose
| Resume (i : nat) (sa : Session -> option Stream)
| RunTask (i : nat) (fuel : nat) (w : World).

(** What a caller gets back at a step: the result of a call that began at
    this step, or of a call that was resumed, or nothing. *)
Inductive Obs : Set :=
| ObsAccept (r : option Stream * option netError)
| ObsClose (r : option netError)
| ObsResumedAccept (r : option Stream * option netError)
| ObsResumedClose (r : option netError)
| ObsNone.

(** One step; [None] when the step cannot be taken (nothing of that kind is
    pending at [i], a panic, or a connector out of fuel). *)
Definition exec (l : Call) (s : System) : option (System * Obs * list Event) :=
  match l with
  | CallAccept sa =>
      match Accept sa (client s) with
      | Some (c, r, evs) =>
          Some (mkSystem c (pending s ++ spawned evs), ObsAccept r, evs)
      | None => None
      end
  | CallClose =>
      match Close (client s) with
      | Some (c, r, evs) =>
          Some (mkSystem c (pending s ++ spawned evs), ObsClose r, evs)
      | None => None
      end
  | EnterAccept =>
      if closed (client s)
      then Some (s, ObsAccept (None, Some ErrClientClosed), [])
      else Some (mkSystem (client s) (pending s ++ [InAccept]), ObsNone, [])
  | EnterClose =>
      if closed (client s)
      then Some (s, ObsClose None, [])
      else Some (mkSystem (client s) (pending s ++ [InClose]), ObsNone, [])
  | Resume i sa =>
      match pending s !! i with
      | Some InAccept =>
          match acceptLocked sa (client s) with
          | Some (c, r, evs) =>
              Some (mkSystem c (delete i (pending s) ++ spawned evs),
                    ObsResumedAccept r, evs)
          | None => None
          end
      | Some InClose =>
          match closeDefault (client s) with
          | Some (c, r, evs) =>
              Some (mkSystem c (delete i (pending s) ++ spawned evs),
                    ObsResumedClose r, evs)
          | None => None
          end
      | _ => None
      end
  | RunTask i fuel w =>
      match pending s !! i with
      | Some (Goroutine TaskReconnect) =>
          match reconnect fuel w (client s) with
          | Some (c, evs) =>
              Some (mkSystem c (delete i (pending s) ++ spawned evs), ObsNone, evs)
          | None => None
          end
      | Some (Goroutine TaskCloseCleanup) =>
          match closeCleanup (client s) with
          | Some (c, evs) =>
              Some (mkSystem c (delete i (pending s) ++ spawned evs), ObsNone, evs)
          | None => None
          end
      | _ => None
      end
  end.

(** A schedule, with everything observed on the way. *)
Fixpoint run (ls : list Call) (s : System)
    : option (System * list Obs * list Event) :=
  match ls with
  | [] => Some (s, [], [])
  | l :: ls =>
      match exec l s with
      | Some (s1, o, evs) =>
          match run ls s1 with
          | Some (s2, os, evs') => Some (s2, o :: os, evs ++ evs')
          | None => None
          end
      | None => None
      end
  end.

(** No repair is pending and no [Accept] is under way. *)
Definition quiet (s : System) : Prop :=
  (Goroutine TaskReconnect ∉ pending s) /\ (InAccept ∉ pending s).

(** Reading the event list. *)
Definition dialTimes (evs : list Event) : list Z :=
  omap (fun e => match e with EvDial t _ _ => Some t | _ => None end) evs.

Definition isCloseOf (s : Session) (e : Event) : bool :=
  match e with EvSessionClose s' => bool_decide (s' = s) | _ => false end.

Definition closesOf (s : Session) (evs : list Event) : nat :=
  length (List.filter (isCloseOf s) evs).

(** Events that reach no session's [Accept] and start no goroutine. *)
Definition idleEvent (e : Event) : Prop :=
  match e with
  | EvSessionAccept _ | EvGo _ => False
  | _ => True
  end.

(** The events of the connector are calls of the configurer and dials. *)
Definition connectorEvent (e : Event) : Prop :=
  match e with
  | EvConfigurer | EvDial _ _ _ => True
  | _ => False
  end.

(** The dials [k], [k+1], ..., [k+n-1] all fail with a retryable answer. *)
Definition retryableFrom (w : World) (k n : nat) : Prop :=
  forall j, (k <= j < k + n)%nat ->
    exists res, dialResult w j = DialErr res /\ shouldRetry res = true.

End Whclient.

(** ** Reading traces and systems *)

#[global] Instance Task_eq_dec : EqDecision Task.
Proof. solve_decision. Defined.

#[global] Instance Thread_eq_dec : EqDecision Thread.
Proof. solve_decision. Defined.

(** How often the configurer was called. *)
Definition isConfigurerCall (e : Event) : bool :=
  match e with EvConfigurer => true | _ => false end.

Definition configurerCalls (evs : list Event) : nat :=
  length (List.filter isConfigurerCall evs).

(** The address and the headers of every dial, in order. *)
Definition dialRequests (evs : list Event)
    : list (string * list (string * string)) :=
  omap (fun e => match e with EvDial _ a h => Some (a, h) | _ => None end) evs.

(** The sessions that were closed, in order. *)
Definition sessionsClosed (evs : list Event) : list Session :=
  omap (fun e => match e with EvSessionClose x => Some x | _ => None end) evs.

(** The number of [reconnect] goroutines that have not run yet. *)
Definition repairsPending (s : System) : nat :=
  length (filter (fun t => t = Goroutine TaskReconnect) (pending s)).

(** The delay the retry loop waits before its [j]-th dial ([j >= 1]; dial 0
    is the immediate one): [InitialDelay] advanced [j - 1] times. *)
Definition delayBefore {ext : External} (c : Client) (j : nat) : Z :=
  Nat.iter (pred j) (nextDelay (retry c)) (InitialDelay (retry c)).

(** The shape of the client between two steps: the fields that [Accept],
    [URL] and the clean-up of [Close] dereference are set, [stateClosed] is not
    used, at most one repair is pending and only for a broken client, a broken
    client has a stored error, a running client that was not shut down has
    none, and the clean-up of [Close] is pending only after the shutdown
    signal. *)
Definition wellFormed (s : System) : Prop :=
  is_Some (session (client s))
  /\ is_Some (url (client s))
  /\ state (client s) <> stateClosed
  /\ (repairsPending s <= 1)%nat
  /\ (Goroutine TaskReconnect ∈ pending s -> state (client s) = stateBroken)
  /\ (state (client s) = stateBroken -> is_Some (acceptErr (client s)))
  /\ (state (client s) = stateRunning -> closed (client s) = false ->
      acceptErr (client s) = None)
  /\ (Goroutine TaskCloseCleanup ∈ pending s -> closed (client s) = true).

(** A call of [Accept] returned a stream, or an error, and not both. *)
Definition oneOf (r : option Stream * option netError) : Prop :=
  (is_Some (fst r) /\ snd r = None) \/ (fst r = None /\ is_Some (snd r)).

(** What an observation says about a stream: none was handed out. *)
Definition noStream (o : Obs) : Prop :=
  match o with
  | ObsAccept r | ObsResumedAccept r => fst r = None
  | _ => True
  end.

(** ** utils.go: [Indent] and [Underline]

    Go strings are byte strings; so are the strings here. *)

(** The byte ["\n"]. *)
Definition newline : Ascii.ascii :=
  Ascii.Ascii false true false true false false false false.

(** [strings.Split s sep] for a separator of one byte: the substrings between
    the separators, one more than there are separators. *)
Fixpoint Split (s : string) (sep : Ascii.ascii) : list string :=
  match s with
  | EmptyString => [EmptyString]
  | String c s' =>
      if Ascii.eqb c sep then EmptyString :: Split s' sep
      else match Split s' sep with
           | l :: ls => String c l :: ls
           | [] => [String c EmptyString]
           end
  end.

(** [strings.TrimRight s cutset] for a cutset of one byte. *)
Fixpoint TrimRight (s : string) (c : Ascii.ascii) : string :=
  match s with
  | EmptyString => EmptyString
  | String a s' =>
      match TrimRight s' c with
      | EmptyString => if Ascii.eqb a c then EmptyString else String a EmptyString
      | t => String a t
      end
  end.

(** [strings.Repeat s count]. *)
Fixpoint Repeat (s : string) (count : nat) : string :=
  match count with
  | O => EmptyString
  | S n => String.append s (Repeat s n)
  end.

(** The loop [for _, j := range lines { result += indent + j + "\n" }]. *)
Definition indentLoop (indent : string) (lines : list string) : string :=
  fold_left
    (fun result j =>
       String.append result
         (String.append (String.append indent j) (String newline EmptyString)))
    lines EmptyString.

(** [Indent]; the slices [text[n-1:]] and [text[:n-1]] are [String.substring]s. *)
Definition Indent (text indent : string) : string :=
  if String.eqb text EmptyString then text
  else if String.eqb (String.substring (String.length text - 1) 1 text)
                     (String newline EmptyString)
  then indentLoop indent
         (Split (String.substring 0 (String.length text - 1) text) newline)
  else
    let result := indentLoop indent (Split (TrimRight text newline) newline) in
    String.substring 0 (String.length result - 1) result.

(** [Underline]. *)
Definition Underline (text : string) : string :=
  String.append
    (String.append (String.append text (String newline EmptyString))
                   (Repeat "=" (String.length text)))
    (String newline EmptyString).


(** Whether the byte [c] occurs in [s]. *)
Fixpoint contains (c : Ascii.ascii) (s : string) : bool :=
  match s with
  | EmptyString => false
  | String a s' => Ascii.eqb a c || contains c s'
  end.

(** The result of the loop of [Indent], written by recursion on the lines;
    the same without the last newline. *)
Fixpoint joinLines (indent : string) (lines : list string) : string :=
  match lines with
  | [] => EmptyString
  | j :: lines =>
      String.append (String.append (String.append indent j) (String newline EmptyString))
                    (joinLines indent lines)
  end.

Fixpoint sepLines (indent : string) (lines : list string) : string :=
  match lines with
  | [] => EmptyString
  | [j] => String.append indent j
  | j :: lines =>
      String.append (String.append (String.append indent j) (String newline EmptyString))
                    (sepLines indent lines)
  end.

(** ** Concrete environments for the examples *)

(** An instance of the outside code: a token is usable when it is not empty,
    unset retry fields default to 10 and 50 nanoseconds, the delay doubles. *)
Definition demoExt : External := {|
  IsTokenUsable := fun t => negb (String.eqb t "");
  MakeWsURL := fun a => String.append "ws://" a;
  defaultValues := fun r =>
    mkRetryConfig (if InitialDelay r =? 0 then 10 else InitialDelay r)
                  (if MaxElapsedTime r =? 0 then 50 else MaxElapsedTime r);
  nextDelay := fun _ d => 2 * d;
  CanonicalMIMEHeaderKey := fun k =>
    if String.eqb k "x-webhooktunnel-client-url"
    then "X-Webhooktunnel-Client-Url"%string
    else k
|}.

Definition demoConfig : Config :=
  mkConfig "worker-1" "relay.example.com" "secret" (mkRetryConfig 10 50).

(** A response that has only a status, and a handshake response that carries
    the public URL. *)
Definition respStatus (status : Z) : Response := mkResponse status ∅.

Definition respWithURL (u : string) : Response :=
  mkResponse 101 {[ "X-Webhooktunnel-Client-Url"%string := [u] ]}.

(** A world whose dials are answered by [dials] and take [d] nanoseconds
    each; the configurer answers [cfg]; ties between the timers go to the
    budget timer when [tie] is [true]. *)
Definition demoWorld (cfg : ConfigurerResult) (dials : nat -> DialResult)
    (d : nat) (tie : bool) : World :=
  mkWorld cfg dials (fun _ => d) (fun _ => tie) 0.

(** Every dial is answered by the same result. *)
Definition always (r : DialResult) : nat -> DialResult := fun _ => r.

(** The first dials are answered from a list, later ones by [r]. *)
Definition script (rs : list DialResult) (r : DialResult) : nat -> DialResult :=
  fun k => nth k rs r.

(** A client built by [New] over a relay that accepts the first dial. *)
Definition demoClient : Client :=
  let cl := setConfig (ext := demoExt) demoConfig emptyClient in
  let cl := set_url "https://relay.example.com/worker-1" cl in
  set_session (Some (wsmux_Client 1%nat (mkWsmuxConfig 0))) cl.

(** The same client after its session failed under [Accept], and with a
    credential that is not usable. *)
Definition demoBroken : Client :=
  set_acceptErr (Some ErrClientReconnecting) (set_state stateBroken demoClient).

Definition demoExpired : Client :=
  mkClient (id demoClient) (proxyAddr demoClient) EmptyString (url demoClient)
           (retry demoClient) (session demoClient) (state demoClient)
           (closed demoClient) (acceptErr demoClient).

(** Worlds: the relay accepts every dial on connection [conn] and assigns the
    URL [u]; the relay accepts but sends no URL header; the relay is
    unreachable; the relay answers every dial with [status]. In all of them
    the configurer fails. *)
Definition worldUp (conn : Conn) (u : string) : World :=
  demoWorld CfgErr (always (DialOk conn (respWithURL u))) 0 true.

Definition worldNoURL (conn : Conn) : World :=
  demoWorld CfgErr (always (DialOk conn (respStatus 101))) 0 true.

Definition worldDown : World :=
  demoWorld CfgErr (always (DialErr None)) 0 true.

Definition worldStatus (status : Z) : World :=
  demoWorld CfgErr (always (DialErr (Some (respStatus status)))) 0 true.

(** The relay is unreachable at the first dial and answers 401 to the
    second. *)
Definition worldDownThen401 : World :=
  demoWorld CfgErr
    (script [DialErr None; DialErr (Some (respStatus 401))] (DialErr None))
    0 true.

(** The relay answers 503 to the first dial and accepts the second. *)
Definition world503ThenUp : World :=
  demoWorld CfgErr
    (script [DialErr (Some (respStatus 503))]
            (DialOk 2%nat (respWithURL "https://relay.example.com/worker-1b")))
    0 true.

(** The configurer hands out [demoConfig] and the relay accepts the dial; the
    relay is unreachable and every dial takes 7 nanoseconds. *)
Definition worldRefresh : World :=
  demoWorld (CfgOk demoConfig)
            (always (DialOk 3%nat (respWithURL "https://relay.example.com/worker-1c")))
            0 true.

Definition worldSlow : World :=
  demoWorld CfgErr (always (DialErr None)) 7 false.

(** Every dial takes 100 nanoseconds and is accepted; the relay is
    unreachable at the first dial and accepts the second without sending a
    URL header. *)
Definition worldLate : World :=
  demoWorld CfgErr
            (always (DialOk 2%nat (respWithURL "https://relay.example.com/worker-1b")))
            100 true.

Definition worldDownThenNoURL : World :=
  demoWorld CfgErr (script [DialErr None] (DialOk 7%nat (respStatus 101))) 0 true.

(** [demoClient] alone, and [demoBroken] with its repair pending. *)
Definition demoSystem : System := mkSystem demoClient [].

Definition demoRepairing : System :=
  mkSystem demoBroken [Goroutine TaskReconnect].

(** A caller's session whose [Accept] fails, and one that hands out stream 5. *)
Definition sessionDead : Session -> option Stream := fun _ => None.
Definition sessionLive : Session -> option Stream := fun _ => Some 5%nat.

(** * Properties *)

Section Properties.

Context {ext : External}.

(** ** Dial classifier *)

Lemma quot100_class (s k : Z) :
  0 < k -> (s ÷ 100 = k <-> 100 * k <= s <= 100 * k + 99).
Proof.
  intros Hk. Z.quot_rem_to_equations. lia.
Qed.

(** C1 (as amended). The classifier is a total function of the handshake
    outcome: it asks for a retry exactly when there is no response or the
    status is outside 200..299 and outside 400..499; a status in 200..299 is
    neither retryable nor an authentication failure, a status of 500 or more
    is retryable, the authentication failure is exactly status 401, and an
    authentication failure is never retryable. *)
Theorem dial_classifier_by_status_class (r : option Response) :
  (shouldRetry r = true <->
     r = None \/
     exists res, r = Some res /\
                 ~ (200 <= StatusCode res <= 299) /\
                 ~ (400 <= StatusCode res <= 499))
  /\ (forall res, r = Some res -> 200 <= StatusCode res <= 299 ->
        shouldRetry r = false /\ isAuthError r = false)
  /\ (forall res, r = Some res -> 500 <= StatusCode res -> shouldRetry r = true)
  /\ (isAuthError r = true <-> exists res, r = Some res /\ StatusCode res = 401)
  /\ (isAuthError r = true -> shouldRetry r = false).
Proof.
  destruct r as [res|]; cbn [shouldRetry isAuthError].
  - pose proof (quot100_class (StatusCode res) 2 ltac:(lia)) as H2.
    pose proof (quot100_class (StatusCode res) 4 ltac:(lia)) as H4.
    assert (Hc : (StatusCode res ÷ 100 =? 4) || (StatusCode res ÷ 100 =? 2) = true
                 <-> 200 <= StatusCode res <= 299 \/ 400 <= StatusCode res <= 499).
    { rewrite orb_true_iff, !Z.eqb_eq. tauto. }
    assert (Ha : (StatusCode res =? 401) = true <-> StatusCode res = 401)
      by apply Z.eqb_eq.
    refine (conj _ (conj _ (conj _ (conj _ _)))).
    + split.
      * intros Hs. right. exists res. split; [reflexivity|].
        destruct ((StatusCode res ÷ 100 =? 4) || (StatusCode res ÷ 100 =? 2));
          [discriminate | ].
        split; intros ?; assert (false = true) by (apply Hc; lia); discriminate.
      * intros [?|(res' & [= <-] & ? & ?)]; [discriminate | ].
        destruct ((StatusCode res ÷ 100 =? 4) || (StatusCode res ÷ 100 =? 2));
          [ | reflexivity].
        assert (200 <= StatusCode res <= 299 \/ 400 <= StatusCode res <= 499)
          by (apply Hc; reflexivity).
        tauto.
    + intros res' [= <-] Hrange. split.
      * replace ((StatusCode res ÷ 100 =? 4) || (StatusCode res ÷ 100 =? 2))
          with true; [reflexivity | symmetry; apply Hc; lia].
      * apply Z.eqb_neq. lia.
    + intros res' [= <-] Hrange.
      destruct ((StatusCode res ÷ 100 =? 4) || (StatusCode res ÷ 100 =? 2));
        [ | reflexivity].
      assert (200 <= StatusCode res <= 299 \/ 400 <= StatusCode res <= 499)
        by (apply Hc; reflexivity).
      lia.
    + rewrite Ha. split; [eauto | intros (res' & [= <-] & ?); assumption].
    + rewrite Ha. intros E.
      replace ((StatusCode res ÷ 100 =? 4) || (StatusCode res ÷ 100 =? 2))
        with true; [reflexivity | symmetry; apply Hc; lia].
  - refine (conj _ (conj _ (conj _ (conj _ _)))).
    + split; [left; reflexivity | reflexivity].
    + intros res [=].
    + reflexivity.
    + split; [discriminate | intros (res & [=] & _)].
    + discriminate.
Qed.

(** ** Connector *)

Lemma retryLoop_events fuel w c maxAt : forall k now d backoffAt r evs,
  retryLoop fuel w c maxAt k now d backoffAt = Some (r, evs) ->
  Forall connectorEvent evs.
Proof.
  induction fuel as [|fuel IH]; intros k now d backoffAt r evs; cbn [retryLoop].
  - discriminate.
  - destruct (selectTimers now maxAt backoffAt (pickMax w k)) as [[|] t].
    + intros [= <- <-]. constructor.
    + destruct (dialResult w k) as [conn res|res].
      * intros [= <- <-]. repeat constructor.
      * destruct (negb (shouldRetry res)).
        -- intros [= <- <-]. repeat constructor.
        -- destruct (retryLoop fuel w c maxAt (S k) _ _ _) as [[r' evs']|] eqn:E;
             [ | discriminate].
           intros [= <- <-]. constructor; [exact I | eapply IH; eassumption].
Qed.

Lemma dialFirst_events fuel w c r evs :
  dialFirst fuel w c = Some (r, evs) -> Forall connectorEvent evs.
Proof.
  unfold dialFirst, retryConn.
  destruct (dialResult w 0) as [conn res|res].
  - intros [= <- <-]. repeat constructor.
  - destruct (shouldRetry res).
    + destruct (retryLoop fuel w c _ 1 _ _ _) as [[r' evs']|] eqn:E;
        [ | discriminate].
      intros [= <- <-]. constructor; [exact I | eapply retryLoop_events; eassumption].
    + destruct (isAuthError res); intros [= <- <-]; repeat constructor.
Qed.

Lemma connectWithRetry_events fuel w c c' r evs :
  connectWithRetry fuel w c = Some (c', r, evs) -> Forall connectorEvent evs.
Proof.
  unfold connectWithRetry.
  destruct (negb (IsTokenUsable (token c))).
  - destruct (cfgResult w) as [config|].
    + destruct (dialFirst fuel w (setConfig config c)) as [[r' evs']|] eqn:E;
        [ | discriminate].
      intros [= <- <- <-]. constructor; [exact I | eapply dialFirst_events; eassumption].
    + intros [= <- <- <-]. repeat constructor.
  - destruct (dialFirst fuel w c) as [[r' evs']|] eqn:E; [ | discriminate].
    intros [= <- <- <-]. eapply dialFirst_events; eassumption.
Qed.

(** The connector leaves session, URL, state, shutdown signal and pending
    error alone: it only replaces the configuration. *)
Lemma connectWithRetry_frame fuel w c c' r evs :
  connectWithRetry fuel w c = Some (c', r, evs) ->
  session c' = session c /\ url c' = url c /\ state c' = state c /\
  closed c' = closed c /\ acceptErr c' = acceptErr c.
Proof.
  unfold connectWithRetry.
  destruct (negb (IsTokenUsable (token c))).
  - destruct (cfgResult w) as [config|].
    + destruct (dialFirst fuel w (setConfig config c)) as [[r' evs']|];
        [ | discriminate].
      intros [= <- <- <-]. cbn. repeat split.
    + intros [= <- <- <-]. repeat split.
  - destruct (dialFirst fuel w c) as [[r' evs']|]; [ | discriminate].
    intros [= <- <- <-]. repeat split.
Qed.

(** The immediate attempt: a 401 answer ends the connector with
    [ErrAuthFailed] after that one dial. *)
Lemma connectWithRetry_first_401 fuel w c res :
  IsTokenUsable (token c) = true ->
  dialResult w 0 = DialErr (Some res) ->
  StatusCode res = 401 ->
  connectWithRetry fuel w c =
    Some (c, ConnErr ErrAuthFailed,
          [EvDial (startTime w) (proxyAddr c) (dialHeader c)]).
Proof.
  intros Htok Hd Hs. unfold connectWithRetry, dialFirst.
  rewrite Htok, Hd. cbn [negb shouldRetry isAuthError]. rewrite Hs. reflexivity.
Qed.

(** The retry loop has no authentication-failure exit: whatever the relay
    answers, [retryConn] never returns [ErrAuthFailed]. *)
Lemma retryLoop_never_AuthFailed fuel w c maxAt : forall k now d backoffAt r evs,
  retryLoop fuel w c maxAt k now d backoffAt = Some (r, evs) ->
  r <> ConnErr ErrAuthFailed.
Proof.
  induction fuel as [|fuel IH]; intros k now d backoffAt r evs; cbn [retryLoop].
  - discriminate.
  - destruct (selectTimers now maxAt backoffAt (pickMax w k)) as [[|] t].
    + intros [= <- <-]. discriminate.
    + destruct (dialResult w k) as [conn res|res].
      * intros [= <- <-]. discriminate.
      * destruct (negb (shouldRetry res)).
        -- intros [= <- <-]. discriminate.
        -- destruct (retryLoop fuel w c maxAt (S k) _ _ _) as [[r' evs']|] eqn:E;
             [ | discriminate].
           intros [= <- <-]. eapply IH; eassumption.
Qed.

Lemma retryConn_never_AuthFailed fuel w c now r evs :
  retryConn fuel w c now = Some (r, evs) -> r <> ConnErr ErrAuthFailed.
Proof. unfold retryConn. apply retryLoop_never_AuthFailed. Qed.

(** What the loop returns, read against the answers of the dials it made:
    [n] dials numbered [k], ..., [k + n - 1], all with the same request. *)
Lemma retryLoop_outcome fuel w c maxAt : forall k now d b r evs,
  retryLoop fuel w c maxAt k now d b = Some (r, evs) ->
  configurerCalls evs = 0%nat
  /\ length (dialTimes evs) = length evs
  /\ dialRequests evs = repeat (proxyAddr c, dialHeader c) (length evs)
  /\ retryableFrom w k (pred (length evs))
  /\ match r with
     | ConnOk conn u =>
         exists res, (1 <= length evs)%nat
                     /\ dialResult w (k + pred (length evs)) = DialOk conn res
                     /\ u = Header_Get (Header res) "x-webhooktunnel-client-url"
     | ConnErr ErrRetryFailed =>
         exists res, (1 <= length evs)%nat
                     /\ dialResult w (k + pred (length evs)) = DialErr res
                     /\ shouldRetry res = false
     | ConnErr ErrRetryTimedOut => retryableFrom w k (length evs)
     | ConnErr _ => False
     end.
Proof.
  induction fuel as [|fuel IH]; intros k now d b r evs; cbn [retryLoop];
    [discriminate | ].
  destruct (selectTimers now maxAt b (pickMax w k)) as [[|] t].
  - intros [= <- <-]. cbn.
    repeat split; intros j Hj; lia.
  - destruct (dialResult w k) as [conn res|res] eqn:Hk.
    + intros [= <- <-]. cbn. rewrite Nat.add_0_r.
      split; [reflexivity | ]. split; [reflexivity | ]. split; [reflexivity | ].
      split; [intros j Hj; lia | eauto].
    + destruct (shouldRetry res) eqn:Hres; cbn [negb].
      * destruct (retryLoop fuel w c maxAt (S k) _ _ _) as [[r' evs']|] eqn:E;
          [ | discriminate].
        intros [= <- <-].
        destruct (IH _ _ _ _ _ _ E) as (Hc & Hl & Hreq & Hpre & Hlast).
        assert (Hhead : exists r0, dialResult w k = DialErr r0 /\ shouldRetry r0 = true)
          by eauto.
        cbn. fold (dialTimes evs'). fold (dialRequests evs').
        split; [exact Hc | ]. split; [congruence | ].
        split; [rewrite Hreq; reflexivity | ]. split.
        -- intros j Hj. destruct (decide (j = k)) as [-> | Hne]; [exact Hhead | ].
           apply Hpre. lia.
        -- destruct r' as [conn u | []]; try exact Hlast.
           ++ destruct Hlast as (res' & Hn & Hd & Hu). exists res'.
              split; [lia | ]. split; [ | exact Hu].
              replace (k + length evs')%nat with (S k + pred (length evs'))%nat by lia.
              exact Hd.
           ++ destruct Hlast as (res' & Hn & Hd & Hs). exists res'.
              split; [lia | ]. split; [ | exact Hs].
              replace (k + length evs')%nat with (S k + pred (length evs'))%nat by lia.
              exact Hd.
           ++ intros j Hj. destruct (decide (j = k)) as [-> | Hne]; [exact Hhead | ].
              apply Hlast. lia.
      * intros [= <- <-]. cbn. rewrite Nat.add_0_r.
        split; [reflexivity | ]. split; [reflexivity | ]. split; [reflexivity | ].
        split; [intros j Hj; lia | eauto].
Qed.

(** The same for the connector from its first dial on: dials [0], ...,
    [n - 1]. *)
Lemma dialFirst_outcome fuel w c r evs :
  dialFirst fuel w c = Some (r, evs) ->
  configurerCalls evs = 0%nat
  /\ length (dialTimes evs) = length evs
  /\ (1 <= length evs)%nat
  /\ dialRequests evs = repeat (proxyAddr c, dialHeader c) (length evs)
  /\ retryableFrom w 0 (pred (length evs))
  /\ match r with
     | ConnOk conn u =>
         exists res, dialResult w (pred (length evs)) = DialOk conn res
                     /\ u = Header_Get (Header res) "x-webhooktunnel-client-url"
     | ConnErr ErrRetryFailed =>
         exists res, dialResult w (pred (length evs)) = DialErr res
                     /\ shouldRetry res = false
     | ConnErr ErrRetryTimedOut => retryableFrom w 0 (length evs)
     | ConnErr ErrAuthFailed =>
         length evs = 1%nat
         /\ exists res, dialResult w 0 = DialErr (Some res) /\ StatusCode res = 401
     | ConnErr _ => False
     end.
Proof.
  unfold dialFirst, retryConn.
  destruct (dialResult w 0) as [conn res|res] eqn:H0.
  - intros [= <- <-]. cbn.
    repeat (split; [reflexivity || lia || (intros j Hj; lia) | ]). eauto.
  - destruct (shouldRetry res) eqn:Hres.
    + destruct (retryLoop fuel w c _ 1 _ _ _) as [[r' evs']|] eqn:E; [ | discriminate].
      intros [= <- <-].
      destruct (retryLoop_outcome _ _ _ _ _ _ _ _ _ _ E) as (Hc & Hl & Hreq & Hpre & Hlast).
      assert (Hhead : exists r0, dialResult w 0 = DialErr r0 /\ shouldRetry r0 = true)
        by eauto.
      cbn. fold (dialTimes evs'). fold (dialRequests evs').
      split; [exact Hc | ]. split; [congruence | ]. split; [lia | ].
      split; [rewrite Hreq; reflexivity | ]. split.
      * intros j Hj. destruct (decide (j = 0%nat)) as [-> | Hne]; [exact Hhead | ].
        apply Hpre. lia.
      * destruct r' as [conn u | []]; try contradiction.
        -- destruct Hlast as (res' & Hn & Hd & Hu). exists res'.
           split; [ | exact Hu].
           replace (length evs') with (1 + pred (length evs'))%nat by lia. exact Hd.
        -- destruct Hlast as (res' & Hn & Hd & Hs). exists res'.
           split; [ | exact Hs].
           replace (length evs') with (1 + pred (length evs'))%nat by lia. exact Hd.
        -- intros j Hj. destruct (decide (j = 0%nat)) as [-> | Hne]; [exact Hhead | ].
           apply Hlast. lia.
    + destruct (isAuthError res) eqn:Hauth; intros [= <- <-]; cbn.
      * repeat (split; [reflexivity || lia || (intros j Hj; lia) | ]).
        destruct res as [res|]; [ | discriminate].
        exists res. split; [reflexivity | ]. apply Z.eqb_eq, Hauth.
      * repeat (split; [reflexivity || lia || (intros j Hj; lia) | ]). eauto.
Qed.

Lemma connectWithRetry_inv fuel w c c' r evs :
  connectWithRetry fuel w c = Some (c', r, evs) ->
  (IsTokenUsable (token c) = true /\ c' = c /\ dialFirst fuel w c' = Some (r, evs))
  \/ (IsTokenUsable (token c) = false /\ cfgResult w = CfgErr /\ c' = c
      /\ r = ConnErr ErrRetryFailed /\ evs = [EvConfigurer])
  \/ (IsTokenUsable (token c) = false /\
      exists config evs0,
        cfgResult w = CfgOk config /\ c' = setConfig config c
        /\ dialFirst fuel w c' = Some (r, evs0) /\ evs = EvConfigurer :: evs0).
Proof.
  unfold connectWithRetry. destruct (IsTokenUsable (token c)); cbn [negb].
  - destruct (dialFirst fuel w c) as [[r' evs']|] eqn:E; [ | discriminate].
    intros [= <- <- <-]. left. auto.
  - destruct (cfgResult w) as [config|].
    + destruct (dialFirst fuel w (setConfig config c)) as [[r' evs']|] eqn:E;
        [ | discriminate].
      intros [= <- <- <-]. right. right. split; [reflexivity | ].
      exists config, evs'. auto.
    + intros [= <- <- <-]. right. left. auto.
Qed.

(** C9 (as amended). When the credential is unusable and the configurer
    fails, the connector returns at once, whatever the fuel: the error is
    [ErrRetryFailed], the client is unchanged, the only event is the call of
    the configurer (no dial, no retry loop), and the error differs from
    [ErrAuthFailed] and [ErrRetryTimedOut]. *)
Theorem connectWithRetry_refresh_failure (fuel : nat) (w : World) (c : Client) :
  IsTokenUsable (token c) = false ->
  cfgResult w = CfgErr ->
  connectWithRetry fuel w c = Some (c, ConnErr ErrRetryFailed, [EvConfigurer])
  /\ ErrRetryFailed <> ErrAuthFailed
  /\ ErrRetryFailed <> ErrRetryTimedOut.
Proof.
  intros Htok Hcfg. unfold connectWithRetry. rewrite Htok, Hcfg.
  repeat split; discriminate.
Qed.

(** ** The bounded retry loop *)

(** A [select] entered while the delay timer is still running takes the case
    of the timer that fires first. *)
Lemma selectTimers_race (now maxAt backoffAt : Z) (pick : bool) :
  now < backoffAt ->
  (maxAt < backoffAt ->
   selectTimers now maxAt backoffAt pick = (FiredMaxTimer, Z.max now maxAt))
  /\ (backoffAt < maxAt ->
      selectTimers now maxAt backoffAt pick = (FiredBackoff, backoffAt))
  /\ (backoffAt = maxAt ->
      selectTimers now maxAt backoffAt pick =
        (if pick then FiredMaxTimer else FiredBackoff, maxAt)).
Proof.
  intros Hnow. unfold selectTimers.
  repeat split; intros H;
    repeat match goal with
           | |- context [?a <=? ?b] => destruct (Z.leb_spec a b)
           end;
    try lia; f_equal; lia.
Qed.

Lemma selectTimers_backoff (now maxAt backoffAt t : Z) (pick : bool) :
  now < backoffAt ->
  selectTimers now maxAt backoffAt pick = (FiredBackoff, t) ->
  t = backoffAt /\ backoffAt <= maxAt.
Proof.
  intros Hnow.
  destruct (selectTimers_race now maxAt backoffAt pick Hnow) as (Hlt & Hgt & Heq).
  destruct (Z.lt_total maxAt backoffAt) as [H|[H|H]].
  - rewrite (Hlt H). discriminate.
  - rewrite (Heq (eq_sym H)). destruct pick; [discriminate | ].
    intros [= <-]. lia.
  - rewrite (Hgt H). intros [= <-]. lia.
Qed.

Lemma retryLoop_bounded (w : World) (c : Client) (maxAt : Z) :
  (forall d, 0 < d -> 0 < nextDelay (retry c) d) ->
  forall fuel k now d,
    0 < d ->
    (Z.to_nat (maxAt - now) < fuel)%nat ->
    exists r evs,
      retryLoop fuel w c maxAt k now d (now + d) = Some (r, evs)
      /\ Forall (fun t => now < t <= maxAt) (dialTimes evs)
      /\ (retryableFrom w k (length evs) -> r = ConnErr ErrRetryTimedOut).
Proof.
  intros Hnext. induction fuel as [|fuel IH]; intros k now d Hd Hfuel; [lia | ].
  cbn [retryLoop].
  destruct (selectTimers now maxAt (now + d) (pickMax w k)) as [[|] t] eqn:Hsel.
  - eexists _, _. split; [reflexivity | ]. split; [constructor | reflexivity].
  - apply selectTimers_backoff in Hsel as [-> Hle]; [ | lia].
    destruct (dialResult w k) as [conn res|res] eqn:Hk.
    + eexists _, _. split; [reflexivity | ]. split.
      * cbn. constructor; [lia | constructor].
      * intros Hall. destruct (Hall k) as (res' & Hk' & _); [cbn; lia | congruence].
    + destruct (shouldRetry res) eqn:Hretry; cbn [negb].
      * set (now' := now + d + Z.of_nat (dialTime w k)).
        destruct (IH (S k) now' (nextDelay (retry c) d)) as (r & evs & Hrun & Htimes & Hres).
        { apply Hnext, Hd. }
        { subst now'. lia. }
        rewrite Hrun. eexists _, _. split; [reflexivity | ]. split.
        -- cbn. constructor; [lia | ].
           eapply List.Forall_impl; [ | exact Htimes]. cbn. subst now'. lia.
        -- intros Hall. apply Hres. intros j Hj. apply Hall. cbn. lia.
      * eexists _, _. split; [reflexivity | ]. split.
        -- cbn. constructor; [lia | constructor].
        -- intros Hall. destruct (Hall k) as (res' & Hk' & Hr'); [cbn; lia | congruence].
Qed.

(** The retry loop returns, and its result is the one its last dial
    decides. *)
Lemma retryConn_returns (w : World) (c : Client) (T : Z) (fuel : nat) :
  0 < InitialDelay (retry c) ->
  (forall d, 0 < d -> 0 < nextDelay (retry c) d) ->
  (retryFuel c <= fuel)%nat ->
  exists r evs,
    retryConn fuel w c T = Some (r, evs)
    /\ Forall (fun t => T < t <= T + MaxElapsedTime (retry c)) (dialTimes evs)
    /\ (r = ConnErr ErrRetryTimedOut <-> retryableFrom w 1 (length evs))
    /\ (forall conn res,
          evs <> [] -> dialResult w (length evs) = DialOk conn res ->
          r = ConnOk conn (Header_Get (Header res) "x-webhooktunnel-client-url"))
    /\ (forall res,
          evs <> [] -> dialResult w (length evs) = DialErr res ->
          shouldRetry res = false -> r = ConnErr ErrRetryFailed).
Proof.
  intros Hinit Hnext Hfuel.
  destruct (retryLoop_bounded w c (T + MaxElapsedTime (retry c)) Hnext fuel 1%nat T
              (InitialDelay (retry c)) Hinit)
    as (r & evs & Hrun & Htimes & Hto);
    [unfold retryFuel in Hfuel; lia | ].
  exists r, evs. split; [exact Hrun | ]. split; [exact Htimes | ].
  destruct (retryLoop_outcome _ _ _ _ _ _ _ _ _ _ Hrun) as (_ & _ & _ & _ & Hout).
  assert (Hidx : evs <> [] -> (1 + pred (length evs))%nat = length evs).
  { destruct evs; [congruence | cbn; lia]. }
  assert (Hlast : evs <> [] -> retryableFrom w 1 (length evs) ->
                  exists res, dialResult w (length evs) = DialErr res
                              /\ shouldRetry res = true).
  { intros Hne Hall. apply Hall. destruct evs; [congruence | cbn; lia]. }
  refine (conj _ (conj _ _)).
  - split; [ | exact Hto].
    intros ->. exact Hout.
  - intros conn res Hne Hd. destruct r as [conn' u | e].
    + destruct Hout as (res' & _ & Hd' & ->). rewrite (Hidx Hne), Hd in Hd'.
      injection Hd' as <- <-. reflexivity.
    + exfalso. destruct e; try contradiction.
      * destruct Hout as (res' & _ & Hd' & _). rewrite (Hidx Hne) in Hd'. congruence.
      * destruct (Hlast Hne Hout) as (res' & Hd' & _). congruence.
  - intros res Hne Hd Hres. destruct r as [conn' u | e].
    + exfalso. destruct Hout as (res' & _ & Hd' & _). rewrite (Hidx Hne) in Hd'.
      congruence.
    + destruct e; try contradiction; [reflexivity | ].
      exfalso. destruct (Hlast Hne Hout) as (res' & Hd' & Hr'). congruence.
Qed.

(** C8 (as amended). With a positive initial delay and a [nextDelay] that
    keeps delays positive, the retry loop entered at instant [T] returns
    within [retryFuel c] iterations. Every dial it makes begins no later than
    [T + MaxElapsedTime]. It returns [ErrRetryTimedOut] exactly when every
    dial it made failed with a retryable answer; the last dial it began
    decides otherwise, however long that dial took: success when the relay
    accepted it, [ErrRetryFailed] when the answer is not retryable. In each
    [select] of the loop the timer that fires first decides. *)
Theorem retryConn_terminates_within_budget (w : World) (c : Client) (T : Z)
    (fuel : nat) :
  0 < InitialDelay (retry c) ->
  (forall d, 0 < d -> 0 < nextDelay (retry c) d) ->
  (retryFuel c <= fuel)%nat ->
  (exists r evs,
     retryConn fuel w c T = Some (r, evs)
     /\ Forall (fun t => T < t <= T + MaxElapsedTime (retry c)) (dialTimes evs)
     /\ (r = ConnErr ErrRetryTimedOut <-> retryableFrom w 1 (length evs))
     /\ (forall conn res,
           evs <> [] -> dialResult w (length evs) = DialOk conn res ->
           r = ConnOk conn (Header_Get (Header res) "x-webhooktunnel-client-url"))
     /\ (forall res,
           evs <> [] -> dialResult w (length evs) = DialErr res ->
           shouldRetry res = false -> r = ConnErr ErrRetryFailed))
  /\ (forall now maxAt backoffAt pick,
        now < backoffAt ->
        (maxAt < backoffAt ->
         fst (selectTimers now maxAt backoffAt pick) = FiredMaxTimer)
        /\ (backoffAt < maxAt ->
            selectTimers now maxAt backoffAt pick = (FiredBackoff, backoffAt))).
Proof.
  intros Hinit Hnext Hfuel. split.
  - apply retryConn_returns; assumption.
  - intros now maxAt backoffAt pick Hnow.
    destruct (selectTimers_race now maxAt backoffAt pick Hnow) as (Hlt & Hgt & _).
    split; [intros H; rewrite (Hlt H); reflexivity | exact Hgt].
Qed.

(** ** The public URL *)

(** C10. When no successful handshake carries the public-URL header: a
    connector that succeeds returns the empty URL, [New] and the repair built
    on it install the empty URL and [URL] then returns it. The connector does
    succeed: at once when the first dial is accepted, and in every case in
    which the last dial it made was accepted, in the retry loop as well,
    which returns whenever its delays are positive. *)
Theorem connect_without_url_header (w : World) :
  (forall k conn res, dialResult w k = DialOk conn res ->
     Header res !! CanonicalMIMEHeaderKey "x-webhooktunnel-client-url" = None) ->
  (forall fuel c c' conn u evs,
     connectWithRetry fuel w c = Some (c', ConnOk conn u, evs) ->
     u = EmptyString /\
     exists c'' evs', reconnect fuel w c = Some (c'', evs') /\
                      URL c'' = Some EmptyString /\ state c'' = stateRunning)
  /\ (forall fuel config cl evs,
        New fuel (CfgOk config) w = Some (inl cl, evs) ->
        URL cl = Some EmptyString)
  /\ (forall fuel c conn res,
        dialResult w 0 = DialOk conn res ->
        IsTokenUsable (token c) = true \/ (exists config, cfgResult w = CfgOk config) ->
        exists c' evs,
          connectWithRetry fuel w c = Some (c', ConnOk conn EmptyString, evs))
  /\ (forall fuel c c' r evs conn res,
        connectWithRetry fuel w c = Some (c', r, evs) ->
        dialTimes evs <> [] ->
        dialResult w (pred (length (dialTimes evs))) = DialOk conn res ->
        r = ConnOk conn EmptyString)
  /\ (forall fuel c T,
        0 < InitialDelay (retry c) ->
        (forall d, 0 < d -> 0 < nextDelay (retry c) d) ->
        (retryFuel c <= fuel)%nat ->
        exists r evs,
          retryConn fuel w c T = Some (r, evs)
          /\ (forall conn res,
                evs <> [] -> dialResult w (length evs) = DialOk conn res ->
                r = ConnOk conn EmptyString)).
Proof.
  intros Hnohdr.
  assert (Hget : forall k conn res, dialResult w k = DialOk conn res ->
            Header_Get (Header res) "x-webhooktunnel-client-url" = EmptyString).
  { intros k conn res Hk. unfold Header_Get. rewrite (Hnohdr _ _ _ Hk). reflexivity. }
  assert (Hfirst : forall fuel c r evs conn res,
            dialFirst fuel w c = Some (r, evs) ->
            dialResult w (pred (length (dialTimes evs))) = DialOk conn res ->
            r = ConnOk conn EmptyString).
  { intros fuel c r evs conn res Hd Hlast.
    destruct (dialFirst_outcome _ _ _ _ _ Hd) as (_ & Hl & Hn & _ & _ & Hout).
    rewrite Hl in Hlast. destruct r as [conn' u | e].
    - destruct Hout as (res' & Hd' & ->). rewrite Hlast in Hd'.
      injection Hd' as <- <-. f_equal. eapply Hget; eassumption.
    - exfalso. destruct e; try contradiction.
      + destruct Hout as (H1 & res' & Hd' & _). rewrite H1 in Hlast. cbn in Hlast.
        congruence.
      + destruct Hout as (res' & Hd' & _). congruence.
      + destruct (Hout (pred (length evs))) as (res' & Hd' & _); [lia | congruence]. }
  assert (Hlast : forall fuel c c' r evs conn res,
            connectWithRetry fuel w c = Some (c', r, evs) ->
            dialTimes evs <> [] ->
            dialResult w (pred (length (dialTimes evs))) = DialOk conn res ->
            r = ConnOk conn EmptyString).
  { intros fuel c c' r evs conn res Hc Hne Hd.
    destruct (connectWithRetry_inv _ _ _ _ _ _ Hc)
      as [(_ & _ & Hf) | [(_ & _ & _ & _ & ->) | (_ & config & evs0 & _ & _ & Hf & ->)]].
    - eapply Hfirst; eassumption.
    - exfalso. apply Hne. reflexivity.
    - eapply Hfirst; eassumption. }
  assert (Hurl : forall fuel c c' conn u evs,
            connectWithRetry fuel w c = Some (c', ConnOk conn u, evs) ->
            u = EmptyString).
  { intros fuel c c' conn u evs Hc.
    destruct (connectWithRetry_inv _ _ _ _ _ _ Hc)
      as [(_ & _ & Hf) | [(_ & _ & _ & [=] & _) | (_ & config & evs0 & _ & _ & Hf & _)]];
      destruct (dialFirst_outcome _ _ _ _ _ Hf) as (_ & _ & _ & _ & _ & res & Hd & ->);
      eapply Hget; eassumption. }
  refine (conj _ (conj _ (conj _ (conj Hlast _)))).
  - intros fuel c c' conn u evs Hc.
    pose proof (Hurl _ _ _ _ _ _ Hc) as ->. split; [reflexivity | ].
    unfold reconnect. rewrite Hc.
    destruct (session c') as [old|]; eexists _, _; (split; [reflexivity | ]);
      split; reflexivity.
  - intros fuel config cl evs. unfold New.
    destruct (connectWithRetry fuel w (setConfig config emptyClient))
      as [[[c1 [conn u|e]] evs1]|] eqn:Hc; try discriminate.
    intros [= <- <-]. rewrite (Hurl _ _ _ _ _ _ Hc). reflexivity.
  - intros fuel c conn res H0 Hcred.
    unfold connectWithRetry, dialFirst. rewrite H0, (Hget _ _ _ H0).
    destruct (IsTokenUsable (token c)); cbn [negb].
    + eexists _, _. reflexivity.
    + destruct Hcred as [? | [config ->]]; [discriminate | ].
      eexists _, _. reflexivity.
  - intros fuel c T Hinit Hnext Hfuel.
    destruct (retryConn_returns w c T fuel Hinit Hnext Hfuel)
      as (r & evs & Hrun & _ & _ & Hok & _).
    exists r, evs. split; [exact Hrun | ].
    intros conn res Hne Hd. rewrite (Hok _ _ Hne Hd). f_equal.
    eapply Hget; eassumption.
Qed.

(** ** Client state machine *)

Lemma connectorEvents_quiet (s : Session) (evs : list Event) :
  Forall connectorEvent evs -> closesOf s evs = 0%nat /\ spawned evs = [].
Proof.
  unfold closesOf, spawned.
  induction 1 as [|e evs He _ [IH1 IH2]]; [split; reflexivity | ].
  destruct e; cbn in He; try contradiction; cbn; auto.
Qed.

Lemma Accept_after_shutdown (sa : Session -> option Stream) (c : Client) :
  closed c = true ->
  Accept sa c = Some (c, (None, Some ErrClientClosed), []).
Proof. intros H. unfold Accept. rewrite H. reflexivity. Qed.

(** What a successful connector makes of [reconnect]. *)
Lemma reconnect_success fuel w c c1 conn u evs :
  connectWithRetry fuel w c = Some (c1, ConnOk conn u, evs) ->
  reconnect fuel w c =
    Some (mkClient (id c1) (proxyAddr c1) (token c1) (Some u) (retry c1)
                   (Some (wsmux_Client conn (mkWsmuxConfig 4096)))
                   stateRunning (closed c) None,
          evs ++ match session c with
                 | Some old => [EvSessionClose old]
                 | None => []
                 end).
Proof.
  intros Hc. unfold reconnect. rewrite Hc.
  destruct (connectWithRetry_frame _ _ _ _ _ _ Hc) as (Hs & _ & _ & Hcl & _).
  rewrite Hs, <- Hcl. destruct (session c); reflexivity.
Qed.

(** What a failed connector makes of [reconnect]. *)
Lemma reconnect_failure fuel w c c1 e evs :
  connectWithRetry fuel w c = Some (c1, ConnErr e, evs) ->
  reconnect fuel w c = Some (set_acceptErr (Some ErrRetryFailed) c1, evs).
Proof. intros Hc. unfold reconnect. rewrite Hc. reflexivity. Qed.

Lemma acceptLocked_closed sa c c' r evs :
  acceptLocked sa c = Some (c', r, evs) -> closed c' = closed c.
Proof.
  unfold acceptLocked.
  destruct (state c); try (intros [= <- <- <-]; reflexivity).
  destruct (session c) as [s|]; [ | discriminate].
  destruct (sa s); intros [= <- <- <-]; reflexivity.
Qed.

Lemma reconnect_closed fuel w c c' evs :
  reconnect fuel w c = Some (c', evs) -> closed c' = closed c.
Proof.
  unfold reconnect.
  destruct (connectWithRetry fuel w c) as [[[c1 [conn u|e]] evs1]|] eqn:Hc;
    [ | | discriminate];
    destruct (connectWithRetry_frame _ _ _ _ _ _ Hc) as (_ & _ & _ & Hcl1 & _).
  - destruct (session c1); intros [= <- <-]; cbn; congruence.
  - intros [= <- <-]. cbn. congruence.
Qed.

Lemma Close_after_shutdown (c : Client) :
  closed c = true -> Close c = Some (c, None, []).
Proof. intros H. unfold Close. rewrite H. reflexivity. Qed.

Lemma System_eta (s : System) : mkSystem (client s) (pending s) = s.
Proof. destruct s; reflexivity. Qed.

(** A whole call is its [select] followed at once by the rest of the call. *)
Lemma CallAccept_in_two_steps sa s s' r evs :
  closed (client s) = false ->
  exec (CallAccept sa) s = Some (s', ObsAccept r, evs) ->
  run [EnterAccept; Resume (length (pending s)) sa] s
    = Some (s', [ObsNone; ObsResumedAccept r], evs).
Proof.
  intros Hcl. cbn [exec run]. unfold Accept. rewrite Hcl.
  destruct (acceptLocked sa (client s)) as [[[c r'] evs']|] eqn:Ha; [ | discriminate].
  intros [= <- <- <-]. cbn [client pending].
  rewrite (list_lookup_middle (pending s) [] InAccept _ eq_refl), Ha.
  rewrite (delete_middle (pending s) [] InAccept), !app_nil_r. reflexivity.
Qed.

Lemma CallClose_in_two_steps s s' r evs :
  closed (client s) = false ->
  exec CallClose s = Some (s', ObsClose r, evs) ->
  run [EnterClose; Resume (length (pending s)) sessionDead] s
    = Some (s', [ObsNone; ObsResumedClose r], evs).
Proof.
  intros Hcl. cbn [exec run]. unfold Close. rewrite Hcl.
  destruct (closeDefault (client s)) as [[[c r'] evs']|] eqn:Ha; [ | discriminate].
  intros [= <- <- <-]. cbn [client pending].
  rewrite (list_lookup_middle (pending s) [] InClose _ eq_refl), Ha.
  rewrite (delete_middle (pending s) [] InClose), !app_nil_r. reflexivity.
Qed.

(** One step of a client whose shutdown was signalled. *)
Lemma exec_after_shutdown l s s' o evs :
  closed (client s) = true ->
  exec l s = Some (s', o, evs) ->
  closed (client s') = true
  /\ (forall r, o = ObsAccept r -> r = (None, Some ErrClientClosed))
  /\ (quiet s ->
      quiet s'
      /\ pending s' `sublist_of` pending s
      /\ Forall idleEvent evs
      /\ session (client s') = session (client s)
      /\ url (client s') = url (client s)
      /\ state (client s') = state (client s)).
Proof.
  intros Hcl. destruct l as [sa| | | |i sa|i fuel w]; cbn [exec].
  - rewrite (Accept_after_shutdown sa _ Hcl). intros [= <- <- <-]. cbn.
    rewrite app_nil_r.
    refine (conj Hcl (conj _ _)); [intros r [= <-]; reflexivity | ].
    intros Hq. repeat split; try apply Hq; auto.
  - rewrite (Close_after_shutdown _ Hcl). intros [= <- <- <-]. cbn.
    rewrite app_nil_r.
    refine (conj Hcl (conj _ _)); [intros r [=] | ].
    intros Hq. repeat split; try apply Hq; auto.
  - rewrite Hcl. intros [= <- <- <-].
    refine (conj Hcl (conj _ _)); [intros r [= <-]; reflexivity | ].
    intros Hq. repeat split; try apply Hq; auto.
  - rewrite Hcl. intros [= <- <- <-].
    refine (conj Hcl (conj _ _)); [intros r [=] | ].
    intros Hq. repeat split; try apply Hq; auto.
  - destruct (pending s !! i) as [[t| |]|] eqn:Hi; try discriminate.
    + destruct (acceptLocked sa (client s)) as [[[c r] evs']|] eqn:Ha;
        [ | discriminate].
      intros [= <- <- <-]. cbn [client pending].
      refine (conj _ (conj _ _)).
      * rewrite (acceptLocked_closed _ _ _ _ _ Ha). exact Hcl.
      * intros r' [=].
      * intros [_ Hq]. exfalso. apply Hq. eapply list_elem_of_lookup_2. exact Hi.
    + unfold closeDefault. rewrite Hcl. discriminate.
  - destruct (pending s !! i) as [[[|]| |]|] eqn:Hi; try discriminate.
    + destruct (reconnect fuel w (client s)) as [[c evs']|] eqn:Hr; [ | discriminate].
      intros [= <- <- <-]. cbn [client pending].
      refine (conj _ (conj _ _)).
      * rewrite (reconnect_closed _ _ _ _ _ Hr). exact Hcl.
      * intros r' [=].
      * intros [Hq _]. exfalso. apply Hq. eapply list_elem_of_lookup_2. exact Hi.
    + unfold closeCleanup. cbn [session set_acceptErr].
      destruct (session (client s)) as [old|] eqn:Hs; [ | discriminate].
      intros [= <- <- <-]. cbn. rewrite app_nil_r.
      refine (conj Hcl (conj _ _)); [intros r [=] | ].
      intros [Hq1 Hq2].
      pose proof (list_subseteq_delete i (pending s)) as Hsub.
      split; [split; cbn [pending]; intros Hin | ].
      * apply Hq1, Hsub, Hin.
      * apply Hq2, Hsub, Hin.
      * split; [apply sublist_delete | ].
        split; [repeat constructor | ].
        repeat split. exact Hs.
Qed.

(** A whole schedule after the shutdown signal. *)
Lemma run_after_shutdown ls : forall s s' os evs,
  closed (client s) = true ->
  run ls s = Some (s', os, evs) ->
  closed (client s') = true
  /\ Forall (fun o => forall r, o = ObsAccept r -> r = (None, Some ErrClientClosed)) os
  /\ (quiet s ->
      quiet s'
      /\ pending s' `sublist_of` pending s
      /\ Forall idleEvent evs
      /\ session (client s') = session (client s)
      /\ url (client s') = url (client s)
      /\ state (client s') = state (client s)).
Proof.
  induction ls as [|l ls IH]; intros s s' os evs Hcl; cbn [run].
  - intros [= <- <- <-].
    refine (conj Hcl (conj _ _)); [constructor | ].
    intros Hq. repeat split; try apply Hq; auto.
  - destruct (exec l s) as [[[s1 o] evs1]|] eqn:He; [ | discriminate].
    destruct (run ls s1) as [[[s2 os2] evs2]|] eqn:Hr; [ | discriminate].
    intros [= <- <- <-].
    destruct (exec_after_shutdown _ _ _ _ _ Hcl He) as (Hcl1 & Ho1 & Hq1).
    destruct (IH _ _ _ _ Hcl1 Hr) as (Hcl2 & Hos2 & Hq2).
    refine (conj Hcl2 (conj _ _)); [constructor; assumption | ].
    intros Hq.
    destruct (Hq1 Hq) as (Hq' & Hsub1 & Hev1 & Hse1 & Hu1 & Hst1).
    destruct (Hq2 Hq') as (Hq'' & Hsub2 & Hev2 & Hse2 & Hu2 & Hst2).
    split; [exact Hq'' | ].
    split; [etransitivity; eassumption | ].
    split; [apply Forall_app; split; assumption | ].
    repeat split; congruence.
Qed.

(** C3 (as amended). Once the shutdown signal is set it stays set through
    every schedule, and every [Accept] that begins afterwards returns
    [ErrClientClosed]. If moreover no repair is pending and no [Accept] is
    under way when the signal is set, none ever is again: no goroutine is
    started, no session is asked for a stream, and session, URL and state
    never change. *)
Theorem shutdown_is_permanent (ls : list Call) (s s' : System)
    (os : list Obs) (evs : list Event) :
  closed (client s) = true ->
  run ls s = Some (s', os, evs) ->
  closed (client s') = true
  /\ Forall (fun o => forall r, o = ObsAccept r -> r = (None, Some ErrClientClosed)) os
  /\ (quiet s ->
      quiet s'
      /\ pending s' `sublist_of` pending s
      /\ Forall idleEvent evs
      /\ session (client s') = session (client s)
      /\ url (client s') = url (client s)
      /\ state (client s') = state (client s)).
Proof.
  intros Hcl Hrun. exact (run_after_shutdown _ _ _ _ _ Hcl Hrun).
Qed.

Lemma delete_app_l {A : Type} (l1 l2 : list A) (i : nat) :
  (i < length l1)%nat -> delete i (l1 ++ l2) = delete i l1 ++ l2.
Proof.
  revert i. induction l1 as [|x l1 IH]; intros [|i] Hi; cbn in *; try lia;
    [reflexivity | ].
  f_equal. apply IH. lia.
Qed.

(** An [Accept] that passed its [select] before a repair ran, and enters its
    locked region after it: the repair is one step, with every dial of its
    connector inside, and the caller gets what [Accept] finds afterwards. *)
Lemma Accept_behind_repair sa c p j fuel w c2 evs2 c3 r evs3 :
  closed c = false ->
  p !! j = Some (Goroutine TaskReconnect) ->
  reconnect fuel w c = Some (c2, evs2) ->
  spawned evs2 = [] ->
  acceptLocked sa c2 = Some (c3, r, evs3) ->
  run [EnterAccept; RunTask j fuel w; Resume (pred (length p)) sa] (mkSystem c p)
    = Some (mkSystem c3 (delete j p ++ spawned evs3),
            [ObsNone; ObsNone; ObsResumedAccept r], evs2 ++ evs3).
Proof.
  intros Hcl Hj Hr Hsp Ha.
  assert (Hlt : (j < length p)%nat) by (eapply lookup_lt_Some; exact Hj).
  assert (Hlen : length (delete j p) = pred (length p)).
  { rewrite length_delete by eauto. lia. }
  cbn [run exec client pending]. rewrite Hcl. cbn [client pending].
  rewrite (lookup_app_l p [InAccept] j Hlt), Hj, Hr. cbn [client pending].
  rewrite Hsp, app_nil_r, (delete_app_l p [InAccept] j Hlt), <- Hlen.
  rewrite (list_lookup_middle (delete j p) [] InAccept _ eq_refl), Ha.
  rewrite (delete_middle (delete j p) [] InAccept), !app_nil_r. reflexivity.
Qed.

(** C4 (as amended). While the shutdown signal is not set: an [Accept] on a
    running client whose session reports an error marks the client broken,
    stores [ErrClientReconnecting], starts one [reconnect] goroutine (which
    has not run when [Accept] returns) and returns [ErrClientReconnecting]
    with no stream; an [Accept] on a client that is not running returns the
    error it finds stored when it holds the lock, without asking the session.
    The lock is held by a repair for its whole connector run: an [Accept]
    that began while the client was broken and obtains the lock after the
    repair returns the outcome of the repair, after all the dials of the
    repair: [ErrRetryFailed] when the repair failed, and what the new session
    answers when it succeeded. Once the signal is set, [Accept] returns
    [ErrClientClosed] whatever the stored error is. *)
Theorem Accept_session_failure_and_repair (sa : Session -> option Stream)
    (c : Client) :
  (closed c = false -> state c = stateRunning ->
   forall s, session c = Some s -> sa s = None ->
     Accept sa c =
       Some (set_acceptErr (Some ErrClientReconnecting) (set_state stateBroken c),
             (None, Some ErrClientReconnecting),
             [EvSessionAccept s; EvGo TaskReconnect])
     /\ forall p,
          exec (CallAccept sa) (mkSystem c p) =
            Some (mkSystem
                    (set_acceptErr (Some ErrClientReconnecting)
                                   (set_state stateBroken c))
                    (p ++ [Goroutine TaskReconnect]),
                  ObsAccept (None, Some ErrClientReconnecting),
                  [EvSessionAccept s; EvGo TaskReconnect]))
  /\ (closed c = false -> state c <> stateRunning ->
      Accept sa c = Some (c, (None, acceptErr c), []))
  /\ (closed c = true ->
      Accept sa c = Some (c, (None, Some ErrClientClosed), []))
  /\ (closed c = false -> state c = stateBroken ->
      forall p j fuel w c1 res evs,
        p !! j = Some (Goroutine TaskReconnect) ->
        connectWithRetry fuel w c = Some (c1, res, evs) ->
        exists s' r evs',
          run [EnterAccept; RunTask j fuel w; Resume (pred (length p)) sa]
              (mkSystem c p)
            = Some (s', [ObsNone; ObsNone; ObsResumedAccept r], evs ++ evs')
          /\ match res with
             | ConnErr _ =>
                 r = (None, Some ErrRetryFailed) /\ evs' = []
                 /\ client s' = set_acceptErr (Some ErrRetryFailed) c1
             | ConnOk conn u =>
                 let new := wsmux_Client conn (mkWsmuxConfig 4096) in
                 r = match sa new with
                     | Some stream => (Some stream, None)
                     | None => (None, Some ErrClientReconnecting)
                     end
                 /\ evs' = match session c with
                           | Some old => [EvSessionClose old]
                           | None => []
                           end
                           ++ EvSessionAccept new
                              :: match sa new with
                                 | Some _ => []
                                 | None => [EvGo TaskReconnect]
                                 end
             end).
Proof.
  refine (conj _ (conj _ (conj _ _))).
  - intros Hcl Hst s Hs Hsa.
    assert (HA : Accept sa c =
              Some (set_acceptErr (Some ErrClientReconnecting) (set_state stateBroken c),
                    (None, Some ErrClientReconnecting),
                    [EvSessionAccept s; EvGo TaskReconnect])).
    { unfold Accept, acceptLocked. rewrite Hcl, Hst, Hs, Hsa. reflexivity. }
    split; [exact HA | ].
    intros p. cbn [exec client pending]. rewrite HA. reflexivity.
  - intros Hcl Hst. unfold Accept, acceptLocked. rewrite Hcl.
    destruct (state c); [contradiction | reflexivity | reflexivity].
  - apply Accept_after_shutdown.
  - intros Hcl Hst p j fuel w c1 res evs Hj Hc.
    destruct (connectWithRetry_frame _ _ _ _ _ _ Hc) as (_ & _ & Hst1 & _ & _).
    destruct (connectorEvents_quiet (wsmux_Client 0%nat (mkWsmuxConfig 0)) evs
                (connectWithRetry_events _ _ _ _ _ _ Hc)) as [_ Hsp].
    destruct res as [conn u | e].
    + pose proof (reconnect_success _ _ _ _ _ _ _ Hc) as Hr.
      assert (Hsp2 : spawned (evs ++ match session c with
                                     | Some old => [EvSessionClose old]
                                     | None => []
                                     end) = []).
      { unfold spawned in *. rewrite omap_app, Hsp. destruct (session c); reflexivity. }
      destruct (sa (wsmux_Client conn (mkWsmuxConfig 4096))) as [stream|] eqn:Hsa.
      * eexists _, _, (match session c with
                       | Some old => [EvSessionClose old]
                       | None => []
                       end
                       ++ [EvSessionAccept (wsmux_Client conn (mkWsmuxConfig 4096))]).
        split.
        -- rewrite app_assoc.
           eapply (Accept_behind_repair sa c p j fuel w _ _ _ _ _ Hcl Hj Hr Hsp2).
           unfold acceptLocked. cbn [state session]. rewrite Hsa. reflexivity.
        -- cbn zeta. rewrite Hsa. split; reflexivity.
      * eexists _, _, (match session c with
                       | Some old => [EvSessionClose old]
                       | None => []
                       end
                       ++ [EvSessionAccept (wsmux_Client conn (mkWsmuxConfig 4096));
                           EvGo TaskReconnect]).
        split.
        -- rewrite app_assoc.
           eapply (Accept_behind_repair sa c p j fuel w _ _ _ _ _ Hcl Hj Hr Hsp2).
           unfold acceptLocked. cbn [state session]. rewrite Hsa. reflexivity.
        -- cbn zeta. rewrite Hsa. split; reflexivity.
    + pose proof (reconnect_failure _ _ _ _ _ _ Hc) as Hr.
      eexists _, _, []. split.
      * eapply (Accept_behind_repair sa c p j fuel w _ _ _ _ _ Hcl Hj Hr Hsp).
        unfold acceptLocked. cbn [state set_acceptErr]. rewrite Hst1, Hst.
        reflexivity.
      * repeat split.
Qed.

(** C5. A repair of a broken client whose connector succeeds closes the
    previous session exactly once (and closes nothing when there was none),
    installs the session built on the new connection and the new public URL,
    clears the pending error and sets the state to running; the next
    [Accept] asks the new session first and hands out the stream it gives. *)
Theorem reconnect_installs_session (fuel : nat) (w : World) (c c1 : Client)
    (conn : Conn) (u : string) (evs : list Event) :
  state c = stateBroken ->
  closed c = false ->
  connectWithRetry fuel w c = Some (c1, ConnOk conn u, evs) ->
  exists c' evs',
    reconnect fuel w c = Some (c', evs')
    /\ (forall old, session c = Some old -> closesOf old evs' = 1%nat)
    /\ (session c = None -> forall x, closesOf x evs' = 0%nat)
    /\ session c' = Some (wsmux_Client conn (mkWsmuxConfig 4096))
    /\ URL c' = Some u
    /\ acceptErr c' = None
    /\ state c' = stateRunning
    /\ (forall sa stream,
          sa (wsmux_Client conn (mkWsmuxConfig 4096)) = Some stream ->
          Accept sa c' =
            Some (c', (Some stream, None),
                  [EvSessionAccept (wsmux_Client conn (mkWsmuxConfig 4096))]))
    /\ (forall sa, exists c'' r rest,
          Accept sa c' =
            Some (c'', r,
                  EvSessionAccept (wsmux_Client conn (mkWsmuxConfig 4096)) :: rest)).
Proof.
  intros Hst Hcl Hc. eexists _, _.
  split; [apply (reconnect_success _ _ _ _ _ _ _ Hc) | ].
  pose proof (connectWithRetry_events _ _ _ _ _ _ Hc) as Hev.
  refine (conj _ (conj _ (conj _ (conj _ (conj _ (conj _ (conj _ _)))))));
    try reflexivity; cycle 3.
  - intros sa. unfold Accept, acceptLocked. cbn. rewrite Hcl.
    destruct (sa _); eexists _, _, _; reflexivity.
  - intros old ->. unfold closesOf. rewrite List.filter_app, List.length_app.
    destruct (connectorEvents_quiet old evs Hev) as [Hz _].
    unfold closesOf in Hz. rewrite Hz. cbn.
    rewrite bool_decide_eq_true_2 by reflexivity. reflexivity.
  - intros -> x. rewrite app_nil_r. apply (connectorEvents_quiet x evs Hev).
  - intros sa stream Hsa. unfold Accept, acceptLocked. cbn.
    rewrite Hcl, Hsa. reflexivity.
Qed.

(** C6 (as amended). A repair of a broken client whose connector fails leaves
    the client broken, with its session and URL, and stores [ErrRetryFailed]
    as the pending error whatever error the connector returned; while the
    shutdown signal is not set, the next [Accept] returns [ErrRetryFailed]. *)
Theorem reconnect_failure_stores_RetryFailed (fuel : nat) (w : World)
    (c c1 : Client) (e : netError) (evs : list Event) :
  state c = stateBroken ->
  connectWithRetry fuel w c = Some (c1, ConnErr e, evs) ->
  exists c',
    reconnect fuel w c = Some (c', evs)
    /\ state c' = stateBroken
    /\ acceptErr c' = Some ErrRetryFailed
    /\ session c' = session c
    /\ url c' = url c
    /\ (closed c = false ->
        forall sa, Accept sa c' = Some (c', (None, Some ErrRetryFailed), [])).
Proof.
  intros Hst Hc. eexists.
  split; [apply (reconnect_failure _ _ _ _ _ _ Hc) | ].
  destruct (connectWithRetry_frame _ _ _ _ _ _ Hc) as (Hs & Hu & Hst1 & Hcl1 & _).
  cbn. repeat split; try congruence.
  intros Hcl sa. unfold Accept, acceptLocked. cbn.
  rewrite Hcl1, Hcl, Hst1, Hst. reflexivity.
Qed.

Lemma run_Close_again (n : nat) (s : System) :
  closed (client s) = true ->
  run (repeat CallClose n) s = Some (s, repeat (ObsClose None) n, []).
Proof.
  intros Hcl. induction n as [|n IH]; [reflexivity | ].
  cbn [repeat run exec]. rewrite (Close_after_shutdown _ Hcl).
  cbn [spawned omap]. rewrite app_nil_r, System_eta, IH. reflexivity.
Qed.

(** Calls of [Close] that follow one another, none beginning before the
    previous one returned: each returns nil, [n + 1] calls leave the same
    client, the same pending goroutines and the same events as the first call
    alone; the channel is closed by the first call if it was open and by no
    later call. After a [Close], every [Accept] returns [ErrClientClosed],
    whatever ran in between. *)
Lemma Close_in_sequence_idempotent (n : nat) (s : System) :
  exists s1 evs1,
    exec CallClose s = Some (s1, ObsClose None, evs1)
    /\ run (repeat CallClose (S n)) s =
         Some (s1, repeat (ObsClose None) (S n), evs1)
    /\ evs1 = (if closed (client s) then []
               else [EvCloseChan; EvGo TaskCloseCleanup])
    /\ closed (client s1) = true
    /\ (forall ls s2 os evs,
          run ls s1 = Some (s2, os, evs) ->
          Forall (fun o => forall r, o = ObsAccept r ->
                                     r = (None, Some ErrClientClosed)) os
          /\ forall sa,
               Accept sa (client s2) =
                 Some (client s2, (None, Some ErrClientClosed), [])).
Proof.
  assert (H1 : exists s1 evs1,
             exec CallClose s = Some (s1, ObsClose None, evs1)
             /\ evs1 = (if closed (client s) then []
                        else [EvCloseChan; EvGo TaskCloseCleanup])
             /\ closed (client s1) = true).
  { cbn [exec]. unfold Close, closeDefault.
    destruct (closed (client s)) eqn:Hcl.
    - eexists _, _. split; [reflexivity | ]. split; [reflexivity | exact Hcl].
    - eexists _, _. split; [reflexivity | ]. split; reflexivity. }
  destruct H1 as (s1 & evs1 & Hex & Hev & Hcl1).
  exists s1, evs1.
  refine (conj Hex (conj _ (conj Hev (conj Hcl1 _)))).
  - cbn [repeat run]. rewrite Hex, (run_Close_again n s1 Hcl1), app_nil_r.
    reflexivity.
  - intros ls s2 os evs Hrun.
    destruct (run_after_shutdown _ _ _ _ _ Hcl1 Hrun) as (Hcl2 & Hos & _).
    split; [exact Hos | ].
    intros sa. apply Accept_after_shutdown, Hcl2.
Qed.

End Properties.

(** C1 (as stated) fails: status 302 lies in 200..399, is not 401 and is
    below 500, yet the classifier asks for a retry. *)
Lemma dial_classifier_302_retries :
  200 <= StatusCode (respStatus 302) <= 399 /\
  StatusCode (respStatus 302) <> 401 /\
  ~ 500 <= StatusCode (respStatus 302) /\
  shouldRetry (Some (respStatus 302)) = true.
Proof.
  cbn. repeat split; try lia; discriminate.
Qed.

(** ** The properties at concrete inputs *)

(** [New] over a relay that accepts the first dial builds [demoClient]. *)
Example New_builds_demoClient :
  New (ext := demoExt) 0 (CfgOk demoConfig)
      (worldUp 1%nat "https://relay.example.com/worker-1")
  = Some (inl demoClient,
          [EvConfigurer;
           EvDial 0 "ws://relay.example.com"
                  [("Authorization"%string, "Bearer secret"%string);
                   ("x-webhooktunnel-id"%string, "worker-1"%string)]]).
Proof. vm_compute. reflexivity. Qed.

(** The relay never answers: the budget of 50 runs out after the dials at
    0, 10 and 30. *)
Example connect_times_out :
  option_map (fun x => (snd (fst x), dialTimes (snd x)))
             (connectWithRetry (ext := demoExt) 51 worldDown demoClient)
  = Some (ConnErr ErrRetryTimedOut, [0; 10; 30]).
Proof. vm_compute. reflexivity. Qed.

(** First dial 503, second dial accepted: the URL is the second one's. *)
Example connect_second_attempt :
  option_map (fun x => (snd (fst x), dialTimes (snd x)))
             (connectWithRetry (ext := demoExt) 51 world503ThenUp demoClient)
  = Some (ConnOk 2%nat "https://relay.example.com/worker-1b", [0; 10]).
Proof. vm_compute. reflexivity. Qed.

(** First dial 401: [ErrAuthFailed] after that single dial. *)
Example connect_first_401 :
  option_map (fun x => (snd (fst x), dialTimes (snd x)))
             (connectWithRetry (ext := demoExt) 51 (worldStatus 401) demoClient)
  = Some (ConnErr ErrAuthFailed, [0]).
Proof. vm_compute. reflexivity. Qed.

(** C2, the failing input. The first dial gets no response, the dial made by
    the retry loop at instant 10 is answered with status 401: the connector
    returns [ErrRetryFailed], not [ErrAuthFailed]. *)
Lemma connectWithRetry_401_in_retry_loop :
  isAuthError (Some (respStatus 401)) = true /\
  connectWithRetry (ext := demoExt) 51 worldDownThen401 demoClient
  = Some (demoClient, ConnErr ErrRetryFailed,
          [EvDial 0 "ws://relay.example.com"
                  [("Authorization"%string, "Bearer secret"%string);
                   ("x-webhooktunnel-id"%string, "worker-1"%string)];
           EvDial 10 "ws://relay.example.com"
                  [("Authorization"%string, "Bearer secret"%string);
                   ("x-webhooktunnel-id"%string, "worker-1"%string)]]).
Proof. split; vm_compute; reflexivity. Qed.

(** C3 (as stated) fails. The session of [demoClient] fails under [Accept],
    which starts a repair; [Close] is called; the repair then runs against a
    relay that accepts the dial. At that step the shutdown signal is set and
    the client is broken; after it the client is running on a new session
    with a new URL. *)
Lemma repair_after_Close_installs_session :
  exists s1 s2 os1 evs1 evs2,
    run (ext := demoExt) [CallAccept sessionDead; CallClose]
        (mkSystem demoClient [])
      = Some (s1, os1, evs1)
    /\ closed (client s1) = true
    /\ state (client s1) = stateBroken
    /\ session (client s1) = Some (wsmux_Client 1%nat (mkWsmuxConfig 0))
    /\ url (client s1) = Some "https://relay.example.com/worker-1"%string
    /\ exec (ext := demoExt)
            (RunTask 0 0 (worldUp 2%nat "https://relay.example.com/worker-1b")) s1
      = Some (s2, ObsNone, evs2)
    /\ closed (client s2) = true
    /\ state (client s2) = stateRunning
    /\ session (client s2) = Some (wsmux_Client 2%nat (mkWsmuxConfig 4096))
    /\ url (client s2) = Some "https://relay.example.com/worker-1b"%string.
Proof.
  eexists _, _, _, _, _.
  split; [vm_compute; reflexivity | ].
  do 4 (split; [reflexivity | ]).
  split; [vm_compute; reflexivity | ].
  repeat split.
Qed.

(** C4 (as stated) fails. The session of [demoClient] fails under [Accept]:
    the client is broken, [ErrClientReconnecting] is stored and a repair is
    pending. An [Accept] begins; the repair runs, dialling at the instants 0,
    10 and 30 until its budget is used up; only then the [Accept] gets the
    lock, and it returns [ErrRetryFailed], not the error that was stored when
    it began. With a relay that accepts the dial the same [Accept] returns a
    stream. And after a [Close] the client is still broken with
    [ErrClientReconnecting] stored, yet [Accept] returns [ErrClientClosed]. *)
Lemma Accept_waits_for_pending_repair :
  exists s0,
    exec (ext := demoExt) (CallAccept sessionDead) demoSystem
      = Some (s0, ObsAccept (None, Some ErrClientReconnecting),
              [EvSessionAccept (wsmux_Client 1%nat (mkWsmuxConfig 0));
               EvGo TaskReconnect])
    /\ closed (client s0) = false
    /\ state (client s0) = stateBroken
    /\ acceptErr (client s0) = Some ErrClientReconnecting
    /\ pending s0 = [Goroutine TaskReconnect]
    /\ (exists s1 evs,
          run (ext := demoExt)
              [EnterAccept; RunTask 0 51 worldDown; Resume 0 sessionLive] s0
            = Some (s1, [ObsNone; ObsNone;
                         ObsResumedAccept (None, Some ErrRetryFailed)], evs)
          /\ dialTimes evs = [0; 10; 30])
    /\ (exists s1 evs,
          run (ext := demoExt)
              [EnterAccept;
               RunTask 0 51 (worldUp 2%nat "https://relay.example.com/worker-1b");
               Resume 0 sessionLive] s0
            = Some (s1, [ObsNone; ObsNone; ObsResumedAccept (Some 5%nat, None)],
                    evs))
    /\ (exists s1 evs,
          exec (ext := demoExt) CallClose s0 = Some (s1, ObsClose None, evs)
          /\ state (client s1) = stateBroken
          /\ acceptErr (client s1) = Some ErrClientReconnecting
          /\ Accept sessionDead (client s1)
             = Some (client s1, (None, Some ErrClientClosed), [])).
Proof.
  eexists.
  split; [vm_compute; reflexivity | ].
  do 4 (split; [reflexivity | ]).
  split; [eexists _, _; split; vm_compute; reflexivity | ].
  split; [eexists _, _; vm_compute; reflexivity | ].
  eexists _, _. split; [vm_compute; reflexivity | ]. repeat split.
Qed.

(** The stored error and the returned one also differ for good: the clean-up
    of [Close] runs, then the pending repair fails and overwrites the stored
    error. *)
Example Accept_after_failed_repair_of_closed_client :
  exists s1 os1 evs1,
    run (ext := demoExt)
        [CallAccept sessionDead; CallClose; RunTask 1 0 worldDown;
         RunTask 0 0 (worldStatus 403)]
        (mkSystem demoClient [])
      = Some (s1, os1, evs1)
    /\ pending s1 = []
    /\ acceptErr (client s1) = Some ErrRetryFailed
    /\ Accept sessionDead (client s1)
       = Some (client s1, (None, Some ErrClientClosed), []).
Proof.
  eexists _, _, _.
  split; [vm_compute; reflexivity | ].
  repeat split.
Qed.

(** A repair can also start after [Close]: an [Accept] that passed its
    [select] before the [Close] finds its session dead afterwards, and the
    repair it starts installs a session. *)
Example repair_started_after_Close :
  exists s1 os1 evs1,
    run (ext := demoExt)
        [EnterAccept; CallClose; Resume 0 sessionDead;
         RunTask 1 0 (worldUp 2%nat "https://relay.example.com/worker-1b")]
        (mkSystem demoClient [])
      = Some (s1, os1, evs1)
    /\ closed (client s1) = true
    /\ state (client s1) = stateRunning
    /\ session (client s1) = Some (wsmux_Client 2%nat (mkWsmuxConfig 4096))
    /\ pending s1 = [Goroutine TaskCloseCleanup].
Proof.
  eexists _, _, _.
  split; [vm_compute; reflexivity | ].
  repeat split.
Qed.

(** C7, the failing input. Two calls of [Close] on [demoClient] overlap: the
    first passes its [select] while the channel is open; the second runs as a
    whole, closes the channel and returns nil; the first then closes the
    channel again, which panics. The same two calls one after the other both
    return nil and close the channel once. *)
Lemma Close_overlapping_calls_panic :
  exists s1,
    closed (client demoSystem) = false
    /\ run (ext := demoExt) [EnterClose; CallClose] demoSystem
       = Some (s1, [ObsNone; ObsClose None], [EvCloseChan; EvGo TaskCloseCleanup])
    /\ closed (client s1) = true
    /\ pending s1 = [InClose; Goroutine TaskCloseCleanup]
    /\ closeDefault (client s1) = None
    /\ exec (ext := demoExt) (Resume 0 sessionDead) s1 = None
    /\ run (ext := demoExt) [EnterClose; CallClose; Resume 0 sessionDead] demoSystem
       = None
    /\ option_map (fun x => (snd (fst x), snd x))
         (run (ext := demoExt) [CallClose; CallClose] demoSystem)
       = Some ([ObsClose None; ObsClose None], [EvCloseChan; EvGo TaskCloseCleanup]).
Proof.
  eexists.
  split; [reflexivity | ].
  split; [vm_compute; reflexivity | ].
  repeat split.
Qed.

(** C6 (as stated) fails. The connector returns [ErrAuthFailed] (first dial
    answered 401), respectively [ErrRetryTimedOut] (relay unreachable), and
    the repair stores [ErrRetryFailed] both times. *)
Lemma reconnect_stores_one_error_for_all :
  exists evsA evsT,
    connectWithRetry (ext := demoExt) 51 (worldStatus 401) demoBroken
      = Some (demoBroken, ConnErr ErrAuthFailed, evsA)
    /\ reconnect (ext := demoExt) 51 (worldStatus 401) demoBroken
      = Some (set_acceptErr (Some ErrRetryFailed) demoBroken, evsA)
    /\ connectWithRetry (ext := demoExt) 51 worldDown demoBroken
      = Some (demoBroken, ConnErr ErrRetryTimedOut, evsT)
    /\ reconnect (ext := demoExt) 51 worldDown demoBroken
      = Some (set_acceptErr (Some ErrRetryFailed) demoBroken, evsT)
    /\ acceptErr (set_acceptErr (Some ErrRetryFailed) demoBroken)
       <> Some ErrAuthFailed
    /\ acceptErr (set_acceptErr (Some ErrRetryFailed) demoBroken)
       <> Some ErrRetryTimedOut.
Proof.
  eexists _, _.
  split; [vm_compute; reflexivity | ].
  split; [vm_compute; reflexivity | ].
  split; [vm_compute; reflexivity | ].
  split; [vm_compute; reflexivity | ].
  split; discriminate.
Qed.

(** C9 (as stated) fails. A failed refresh of an unusable credential and a
    first dial rejected with status 403 make the connector return the same
    error. *)
Lemma refresh_failure_same_error_as_rejected_dial :
  exists e evs,
    IsTokenUsable (External := demoExt) (token demoExpired) = false
    /\ connectWithRetry (ext := demoExt) 51 worldDown demoExpired
       = Some (demoExpired, ConnErr e, [EvConfigurer])
    /\ connectWithRetry (ext := demoExt) 51 (worldStatus 403) demoClient
       = Some (demoClient, ConnErr e, evs)
    /\ dialTimes evs = [0].
Proof.
  eexists _, _.
  split; [reflexivity | ].
  split; [vm_compute; reflexivity | ].
  split; [vm_compute; reflexivity | ].
  reflexivity.
Qed.

(** C8 (as stated) fails. The loop starts at instant 0 with a budget of 50
    and dials at instant 10; the dial takes 100, so when the budget elapses no
    attempt has succeeded and none has been refused; the dial then succeeds
    and the loop returns the connection, not [ErrRetryTimedOut]. *)
Lemma retryConn_success_after_budget :
  exists evs,
    retryConn (ext := demoExt) 51 worldLate demoClient 0
      = Some (ConnOk 2%nat "https://relay.example.com/worker-1b", evs)
    /\ dialTimes evs = [10]
    /\ 0 + MaxElapsedTime (retry demoClient) < 10 + Z.of_nat (dialTime worldLate 1)
    /\ ConnOk 2%nat "https://relay.example.com/worker-1b"
       <> ConnErr ErrRetryTimedOut.
Proof.
  eexists.
  split; [vm_compute; reflexivity | ].
  split; [reflexivity | ].
  split; [reflexivity | discriminate].
Qed.

(** ** The theorems applied *)

(** C3: after a [Close] of [demoClient], with only the clean-up goroutine
    pending: calls of [Accept] and [Close], whole or interrupted, and the
    clean-up itself. *)
Lemma shutdown_is_permanent_witness :
  exists s' os evs,
    run (ext := demoExt)
        [CallAccept sessionLive; EnterAccept; RunTask 0 0 worldDown; CallClose;
         EnterClose; CallAccept sessionLive]
        (mkSystem (set_closed true demoClient) [Goroutine TaskCloseCleanup])
      = Some (s', os, evs)
    /\ closed (client s') = true
    /\ Forall (fun o => forall r, o = ObsAccept r ->
                                  r = (None, Some ErrClientClosed)) os
    /\ session (client s') = session demoClient
    /\ url (client s') = url demoClient
    /\ state (client s') = state demoClient.
Proof.
  eexists _, _, _.
  split; [vm_compute; reflexivity | ].
  match goal with
  | |- closed (client ?s') = _ /\ Forall _ ?os /\ _ =>
      destruct (shutdown_is_permanent (ext := demoExt)
                  [CallAccept sessionLive; EnterAccept; RunTask 0 0 worldDown;
                   CallClose; EnterClose; CallAccept sessionLive]
                  (mkSystem (set_closed true demoClient)
                            [Goroutine TaskCloseCleanup])
                  s' os _ eq_refl eq_refl)
        as (H1 & H2 & H3)
  end.
  split; [exact H1 | ]. split; [exact H2 | ].
  apply H3. split; cbn; intros Hin;
    apply list_elem_of_singleton in Hin; discriminate.
Defined.

(** C4: a failing session under [demoClient]; the broken client afterwards;
    an [Accept] that gets the lock after a repair that timed out. *)
Lemma Accept_session_failure_and_repair_witness :
  Accept sessionDead demoClient
    = Some (demoBroken, (None, Some ErrClientReconnecting),
            [EvSessionAccept (wsmux_Client 1%nat (mkWsmuxConfig 0));
             EvGo TaskReconnect])
  /\ Accept sessionLive demoBroken
     = Some (demoBroken, (None, Some ErrClientReconnecting), [])
  /\ exists s' evs,
       run (ext := demoExt)
           [EnterAccept; RunTask 0 51 worldDown; Resume 0 sessionLive]
           demoRepairing
         = Some (s', [ObsNone; ObsNone;
                      ObsResumedAccept (None, Some ErrRetryFailed)], evs).
Proof.
  split; [ | split].
  - apply (proj1 (Accept_session_failure_and_repair (ext := demoExt)
                    sessionDead demoClient)
             eq_refl eq_refl (wsmux_Client 1%nat (mkWsmuxConfig 0))
             eq_refl eq_refl).
  - apply (proj1 (proj2 (Accept_session_failure_and_repair (ext := demoExt)
                           sessionLive demoBroken))
             eq_refl).
    discriminate.
  - assert (Hc : exists evs,
               connectWithRetry (ext := demoExt) 51 worldDown demoBroken
               = Some (demoBroken, ConnErr ErrRetryTimedOut, evs)).
    { eexists. vm_compute. reflexivity. }
    destruct Hc as (evs0 & Hc).
    destruct (proj2 (proj2 (proj2 (Accept_session_failure_and_repair
                                     (ext := demoExt) sessionLive demoBroken)))
                eq_refl eq_refl [Goroutine TaskReconnect] 0%nat 51%nat worldDown
                demoBroken (ConnErr ErrRetryTimedOut) evs0 eq_refl Hc)
      as (s' & r & evs' & Hrun & -> & _).
    exists s', (evs0 ++ evs'). exact Hrun.
Defined.

(** C5: the repair of [demoBroken] over a relay that accepts the dial. *)
Lemma reconnect_installs_session_witness :
  exists c' evs',
    reconnect (ext := demoExt) 0
              (worldUp 2%nat "https://relay.example.com/worker-1b") demoBroken
      = Some (c', evs')
    /\ closesOf (wsmux_Client 1%nat (mkWsmuxConfig 0)) evs' = 1%nat
    /\ session c' = Some (wsmux_Client 2%nat (mkWsmuxConfig 4096))
    /\ URL c' = Some "https://relay.example.com/worker-1b"%string
    /\ acceptErr c' = None
    /\ state c' = stateRunning
    /\ Accept sessionLive c'
       = Some (c', (Some 5%nat, None),
               [EvSessionAccept (wsmux_Client 2%nat (mkWsmuxConfig 4096))]).
Proof.
  destruct (reconnect_installs_session (ext := demoExt) 0
              (worldUp 2%nat "https://relay.example.com/worker-1b")
              demoBroken demoBroken 2%nat
              "https://relay.example.com/worker-1b"
              [EvDial 0 "ws://relay.example.com"
                      [("Authorization"%string, "Bearer secret"%string);
                       ("x-webhooktunnel-id"%string, "worker-1"%string)]]
              eq_refl eq_refl eq_refl)
    as (c' & evs' & Hr & Hold & _ & Hs & Hu & He & Hst & Hacc & _).
  exists c', evs'.
  split; [exact Hr | ].
  split; [apply Hold; reflexivity | ].
  do 4 (split; [assumption | ]).
  apply Hacc. reflexivity.
Defined.

(** C6: the repair of [demoBroken] over a relay that answers 401. *)
Lemma reconnect_failure_stores_RetryFailed_witness :
  exists c' evs,
    reconnect (ext := demoExt) 0 (worldStatus 401) demoBroken = Some (c', evs)
    /\ state c' = stateBroken
    /\ acceptErr c' = Some ErrRetryFailed
    /\ Accept sessionLive c' = Some (c', (None, Some ErrRetryFailed), []).
Proof.
  destruct (reconnect_failure_stores_RetryFailed (ext := demoExt) 0
              (worldStatus 401) demoBroken demoBroken ErrAuthFailed
              [EvDial 0 "ws://relay.example.com"
                      [("Authorization"%string, "Bearer secret"%string);
                       ("x-webhooktunnel-id"%string, "worker-1"%string)]]
              eq_refl eq_refl)
    as (c' & Hr & Hst & He & _ & _ & Hacc).
  exists c'. eexists.
  split; [exact Hr | ]. split; [exact Hst | ]. split; [exact He | ].
  apply Hacc. reflexivity.
Defined.

(** C8: the relay is unreachable; initial delay 10, budget 50, fuel 51. *)
Lemma retryConn_terminates_within_budget_witness :
  exists r evs,
    retryConn (ext := demoExt) 51 worldDown demoClient 0 = Some (r, evs)
    /\ Forall (fun t => 0 < t <= 0 + 50) (dialTimes evs)
    /\ (r = ConnErr ErrRetryTimedOut <-> retryableFrom worldDown 1 (length evs)).
Proof.
  destruct (proj1 (retryConn_terminates_within_budget (ext := demoExt)
                     worldDown demoClient 0 51
                     eq_refl
                     (fun d (H : 0 < d) => Z.mul_pos_pos 2 d eq_refl H)
                     (le_n 51)))
    as (r & evs & Hrun & Htimes & Hto & _).
  exists r, evs. split; [exact Hrun | ]. split; [exact Htimes | exact Hto].
Defined.

(** C9: [demoExpired] has an empty credential and the configurer fails. *)
Lemma connectWithRetry_refresh_failure_witness :
  connectWithRetry (ext := demoExt) 0 worldDown demoExpired
  = Some (demoExpired, ConnErr ErrRetryFailed, [EvConfigurer]).
Proof.
  apply (proj1 (connectWithRetry_refresh_failure (ext := demoExt) 0 worldDown
                  demoExpired eq_refl eq_refl)).
Defined.

(** C10: the relay accepts the dial and sends no URL header; the relay is
    unreachable at first and accepts the dial of the retry loop, again
    without the header. *)
Lemma connect_without_url_header_witness :
  (exists c' evs,
     connectWithRetry (ext := demoExt) 0 (worldNoURL 7%nat) demoBroken
     = Some (c', ConnOk 7%nat EmptyString, evs))
  /\ (exists c'' evs',
        reconnect (ext := demoExt) 0 (worldNoURL 7%nat) demoBroken
        = Some (c'', evs')
        /\ URL c'' = Some EmptyString /\ state c'' = stateRunning)
  /\ (exists c' r evs,
        connectWithRetry (ext := demoExt) 51 worldDownThenNoURL demoBroken
        = Some (c', r, evs)
        /\ dialTimes evs = [0; 10]
        /\ r = ConnOk 7%nat EmptyString).
Proof.
  assert (Hno : forall (k : nat) (conn : Conn) (res : Response),
            dialResult (worldNoURL 7%nat) k = DialOk conn res ->
            Header res !! CanonicalMIMEHeaderKey (External := demoExt)
                             "x-webhooktunnel-client-url" = None).
  { intros k conn res [= <- <-]. reflexivity. }
  assert (Hno2 : forall (k : nat) (conn : Conn) (res : Response),
            dialResult worldDownThenNoURL k = DialOk conn res ->
            Header res !! CanonicalMIMEHeaderKey (External := demoExt)
                             "x-webhooktunnel-client-url" = None).
  { intros [|[|k]] conn res; cbn; intros [= <- <-]; reflexivity. }
  destruct (connect_without_url_header (ext := demoExt) (worldNoURL 7%nat) Hno)
    as (Hurl & _ & Hok & _).
  destruct (Hok 0%nat demoBroken 7%nat (respStatus 101) eq_refl
                (or_introl eq_refl)) as (c' & evs & Hc).
  split; [exists c', evs; exact Hc | ].
  split.
  - destruct (Hurl _ _ _ _ _ _ Hc) as (_ & c'' & evs' & Hr & Hu & Hst).
    exists c'', evs'. auto.
  - assert (Hrun : exists c2 r2 evs2,
               connectWithRetry (ext := demoExt) 51 worldDownThenNoURL demoBroken
               = Some (c2, r2, evs2) /\ dialTimes evs2 = [0; 10]).
    { eexists _, _, _. split; vm_compute; reflexivity. }
    destruct Hrun as (c2 & r2 & evs2 & Hc2 & Ht2).
    exists c2, r2, evs2. split; [exact Hc2 | ]. split; [exact Ht2 | ].
    apply (proj1 (proj2 (proj2 (proj2
             (connect_without_url_header (ext := demoExt) worldDownThenNoURL Hno2))))
             51%nat demoBroken c2 r2 evs2 7%nat (respStatus 101) Hc2).
    + rewrite Ht2. discriminate.
    + rewrite Ht2. reflexivity.
Defined.

(** * Further properties of the connector *)

Section Connector.

Context {ext : External}.

(** The case of the delay timer is never taken before that timer fired. *)
Lemma selectTimers_not_early (now maxAt backoffAt t : Z) (pick : bool) :
  selectTimers now maxAt backoffAt pick = (FiredBackoff, t) ->
  now <= t /\ backoffAt <= t.
Proof.
  unfold selectTimers.
  repeat match goal with
         | |- context [?a <=? ?b] => destruct (Z.leb_spec a b)
         end;
    try destruct pick; intros [= <-]; lia.
Qed.

(** X1. One invocation of the connector asks the configurer at most once:
    not at all when the credential is usable (the client then keeps its
    configuration), and once, before any dial, when it is not. *)
Theorem connectWithRetry_asks_configurer_once (fuel : nat) (w : World)
    (c c' : Client) (r : ConnResult) (evs : list Event) :
  connectWithRetry fuel w c = Some (c', r, evs) ->
  configurerCalls evs = (if IsTokenUsable (token c) then 0 else 1)%nat
  /\ (IsTokenUsable (token c) = true -> c' = c)
  /\ (IsTokenUsable (token c) = false ->
      exists rest, evs = EvConfigurer :: rest /\ configurerCalls rest = 0%nat).
Proof.
  intros H.
  destruct (connectWithRetry_inv _ _ _ _ _ _ H)
    as [(Ht & -> & Hd) | [(Ht & _ & -> & -> & ->) | (Ht & config & evs0 & _ & -> & Hd & ->)]];
    rewrite Ht.
  - destruct (dialFirst_outcome _ _ _ _ _ Hd) as (Hc & _).
    split; [exact Hc | ]. split; [reflexivity | discriminate].
  - split; [reflexivity | ]. split; [discriminate | ].
    intros _. exists []. split; reflexivity.
  - destruct (dialFirst_outcome _ _ _ _ _ Hd) as (Hc & _).
    split; [cbn; fold (configurerCalls evs0); rewrite Hc; reflexivity | ].
    split; [discriminate | ].
    intros _. exists evs0. split; [reflexivity | exact Hc].
Qed.

(** X2. Every dial of one invocation, the immediate one and the retries, goes
    to the same address with the same two headers: the bearer credential and
    the identity of the configuration the client has when the connector
    returns (the refreshed one, if it refreshed). *)
Theorem connectWithRetry_dials_one_request (fuel : nat) (w : World)
    (c c' : Client) (r : ConnResult) (evs : list Event) :
  connectWithRetry fuel w c = Some (c', r, evs) ->
  dialRequests evs =
    repeat (proxyAddr c',
            [("Authorization"%string, String.append "Bearer " (token c'));
             ("x-webhooktunnel-id"%string, id c')])
           (length (dialTimes evs)).
Proof.
  intros H.
  destruct (connectWithRetry_inv _ _ _ _ _ _ H)
    as [(Ht & -> & Hd) | [(Ht & _ & -> & -> & ->) | (Ht & config & evs0 & _ & -> & Hd & ->)]].
  - destruct (dialFirst_outcome _ _ _ _ _ Hd) as (_ & Hl & _ & Hreq & _).
    rewrite Hl. exact Hreq.
  - reflexivity.
  - destruct (dialFirst_outcome _ _ _ _ _ Hd) as (_ & Hl & _ & Hreq & _).
    cbn. fold (dialTimes evs0). fold (dialRequests evs0).
    rewrite Hl. exact Hreq.
Qed.

(** X3. The connector reports [ErrAuthFailed] only for its immediate
    attempt: that dial was answered with status 401 and it is the only dial
    made. *)
Theorem connectWithRetry_AuthFailed_only_immediate (fuel : nat) (w : World)
    (c c' : Client) (evs : list Event) :
  connectWithRetry fuel w c = Some (c', ConnErr ErrAuthFailed, evs) ->
  length (dialTimes evs) = 1%nat
  /\ exists res, dialResult w 0 = DialErr (Some res) /\ StatusCode res = 401.
Proof.
  intros H.
  destruct (connectWithRetry_inv _ _ _ _ _ _ H)
    as [(Ht & -> & Hd) | [(Ht & _ & _ & [=] & _) | (Ht & config & evs0 & _ & -> & Hd & ->)]];
    destruct (dialFirst_outcome _ _ _ _ _ Hd) as (_ & Hl & _ & _ & _ & Hn & Hres).
  - split; [congruence | exact Hres].
  - cbn. fold (dialTimes evs0). split; [congruence | exact Hres].
Qed.

(** X4. What the connector returns is decided by the last dial it made, and
    every earlier dial failed with a retryable answer. On success the
    connection and the URL are those of the last dial; [ErrRetryTimedOut]
    means the last dial failed with a retryable answer too; [ErrRetryFailed]
    means the last dial was rejected, or no dial was made because the refresh
    of the credential failed. The connector never returns [ErrClientClosed]
    or [ErrClientReconnecting]. *)
Theorem connectWithRetry_result_is_last_dial (fuel : nat) (w : World)
    (c c' : Client) (r : ConnResult) (evs : list Event) :
  connectWithRetry fuel w c = Some (c', r, evs) ->
  retryableFrom w 0 (pred (length (dialTimes evs)))
  /\ match r with
     | ConnOk conn u =>
         (1 <= length (dialTimes evs))%nat
         /\ exists res,
              dialResult w (pred (length (dialTimes evs))) = DialOk conn res
              /\ u = Header_Get (Header res) "x-webhooktunnel-client-url"
     | ConnErr ErrRetryTimedOut =>
         (1 <= length (dialTimes evs))%nat
         /\ retryableFrom w 0 (length (dialTimes evs))
     | ConnErr ErrRetryFailed =>
         (dialTimes evs = [] /\ IsTokenUsable (token c) = false
          /\ cfgResult w = CfgErr)
         \/ ((1 <= length (dialTimes evs))%nat
             /\ exists res,
                  dialResult w (pred (length (dialTimes evs))) = DialErr res
                  /\ shouldRetry res = false)
     | ConnErr ErrAuthFailed => length (dialTimes evs) = 1%nat
     | ConnErr _ => False
     end.
Proof.
  intros H.
  assert (Hmain : forall c0 evs0,
            dialFirst fuel w c0 = Some (r, evs0) ->
            length (dialTimes evs) = length (dialTimes evs0) ->
            dialTimes evs <> [] ->
            retryableFrom w 0 (pred (length (dialTimes evs)))
            /\ match r with
               | ConnOk conn u =>
                   (1 <= length (dialTimes evs))%nat
                   /\ exists res,
                        dialResult w (pred (length (dialTimes evs))) = DialOk conn res
                        /\ u = Header_Get (Header res) "x-webhooktunnel-client-url"
               | ConnErr ErrRetryTimedOut =>
                   (1 <= length (dialTimes evs))%nat
                   /\ retryableFrom w 0 (length (dialTimes evs))
               | ConnErr ErrRetryFailed =>
                   (dialTimes evs = [] /\ IsTokenUsable (token c) = false
                    /\ cfgResult w = CfgErr)
                   \/ ((1 <= length (dialTimes evs))%nat
                       /\ exists res,
                            dialResult w (pred (length (dialTimes evs))) = DialErr res
                            /\ shouldRetry res = false)
               | ConnErr ErrAuthFailed => length (dialTimes evs) = 1%nat
               | ConnErr _ => False
               end).
  { intros c0 evs0 Hd Hlen _.
    destruct (dialFirst_outcome _ _ _ _ _ Hd) as (_ & Hl & Hn & _ & Hpre & Hlast).
    rewrite Hlen, Hl. split; [exact Hpre | ].
    destruct r as [conn u | []]; try contradiction.
    - split; [exact Hn | exact Hlast].
    - destruct Hlast as [? _]. assumption.
    - right. split; [exact Hn | exact Hlast].
    - split; [exact Hn | exact Hlast]. }
  destruct (connectWithRetry_inv _ _ _ _ _ _ H)
    as [(Ht & -> & Hd) | [(Ht & Hcfg & -> & -> & ->) | (Ht & config & evs0 & _ & -> & Hd & ->)]].
  - apply (Hmain _ _ Hd eq_refl).
    destruct (dialFirst_outcome _ _ _ _ _ Hd) as (_ & Hl & Hn & _).
    intros E. rewrite E in Hl. cbn in Hl. lia.
  - cbn. split; [intros j Hj; lia | ]. left. auto.
  - apply (Hmain _ _ Hd eq_refl).
    destruct (dialFirst_outcome _ _ _ _ _ Hd) as (_ & Hl & Hn & _).
    cbn. fold (dialTimes evs0). intros E. rewrite E in Hl. cbn in Hl. lia.
Qed.

(** The loop waits: its first dial comes no earlier than [d] after [now], and
    each later dial no earlier than the end of the dial before plus the delay
    advanced once more. *)
Lemma retryLoop_spacing fuel w c maxAt : forall k now d r evs,
  retryLoop fuel w c maxAt k now d (now + d) = Some (r, evs) ->
  forall i t,
    dialTimes evs !! i = Some t ->
    (i = 0%nat -> now + d <= t /\ now <= t)
    /\ (forall t', dialTimes evs !! S i = Some t' ->
          t + Z.of_nat (dialTime w (k + i))
            + Nat.iter (S i) (nextDelay (retry c)) d <= t'
          /\ t + Z.of_nat (dialTime w (k + i)) <= t').
Proof.
  induction fuel as [|fuel IH]; intros k now d r evs; cbn [retryLoop];
    [discriminate | ].
  destruct (selectTimers now maxAt (now + d) (pickMax w k)) as [[|] t0] eqn:Hsel.
  - intros [= <- <-] i t. cbn. discriminate.
  - apply selectTimers_not_early in Hsel as [Hnow Hback].
    destruct (dialResult w k) as [conn res|res].
    + intros [= <- <-] [|i] t; cbn; [ | discriminate].
      intros [= <-]. split; [auto | intros t' [=]].
    + destruct (negb (shouldRetry res)).
      * intros [= <- <-] [|i] t; cbn; [ | discriminate].
        intros [= <-]. split; [auto | intros t' [=]].
      * destruct (retryLoop fuel w c maxAt (S k) _ _ _) as [[r' evs']|] eqn:E;
          [ | discriminate].
        intros [= <- <-]. cbn [dialTimes omap]. fold (dialTimes evs').
        intros [|i] t; cbn [lookup list_lookup].
        -- intros [= <-]. split; [auto | ].
           intros t' Ht'. rewrite Nat.add_0_r.
           destruct (IH _ _ _ _ _ E 0%nat t' Ht') as [H0 _].
           exact (H0 eq_refl).
        -- intros Ht. split; [discriminate | ].
           intros t' Ht'.
           destruct (IH _ _ _ _ _ E i t Ht) as [_ Hs].
           destruct (Hs t' Ht') as [H1 H2].
           replace (k + S i)%nat with (S k + i)%nat by lia.
           rewrite Nat.iter_succ_r. auto.
Qed.

(** X5. The connector never dials early. Its first dial is made when it
    starts; the first retry comes no earlier than [InitialDelay] after the
    immediate dial ended, and every further retry no earlier than the end of
    the dial before it plus the delay that [nextDelay] gives for it. The dial
    times never decrease. *)
Theorem connectWithRetry_respects_backoff (fuel : nat) (w : World)
    (c c' : Client) (r : ConnResult) (evs : list Event) :
  connectWithRetry fuel w c = Some (c', r, evs) ->
  (forall t, dialTimes evs !! 0%nat = Some t -> t = startTime w)
  /\ (forall i t t',
        dialTimes evs !! i = Some t ->
        dialTimes evs !! S i = Some t' ->
        t + Z.of_nat (dialTime w i) + delayBefore c' (S i) <= t'
        /\ t <= t').
Proof.
  intros H.
  assert (Hmain : forall evs0,
            dialFirst fuel w c' = Some (r, evs0) ->
            (forall t, dialTimes evs0 !! 0%nat = Some t -> t = startTime w)
            /\ (forall i t t',
                  dialTimes evs0 !! i = Some t ->
                  dialTimes evs0 !! S i = Some t' ->
                  t + Z.of_nat (dialTime w i) + delayBefore c' (S i) <= t'
                  /\ t <= t')).
  { intros evs0. unfold dialFirst, retryConn.
    destruct (dialResult w 0) as [conn res|res].
    - intros [= <- <-]. cbn. split; [intros t [= <-]; reflexivity | ].
      intros i t t' _ [=].
    - destruct (shouldRetry res).
      + destruct (retryLoop fuel w c' _ 1 _ _ _) as [[r' evs']|] eqn:E;
          [ | discriminate].
        intros [= <- <-]. cbn [dialTimes omap]. fold (dialTimes evs').
        split; [intros t [= <-]; reflexivity | ].
        pose proof (retryLoop_spacing _ _ _ _ _ _ _ _ _ E) as Hsp.
        intros [|i] t t'; cbn [lookup list_lookup].
        * intros [= <-] Ht'.
          destruct (Hsp 0%nat t' Ht') as [H0 _]. destruct (H0 eq_refl).
          split; [exact H1 | lia].
        * intros Ht Ht'.
          destruct (Hsp i t Ht) as [_ Hs]. destruct (Hs t' Ht') as [H1 H2].
          split; [exact H1 | lia].
      + destruct (isAuthError res); intros [= <- <-]; cbn;
          (split; [intros t [= <-]; reflexivity | intros i t t' _ [=]]). }
  destruct (connectWithRetry_inv _ _ _ _ _ _ H)
    as [(Ht & -> & Hd) | [(Ht & _ & -> & -> & ->) | (Ht & config & evs0 & _ & -> & Hd & ->)]].
  - apply (Hmain _ Hd).
  - cbn. split; [intros t [=] | intros i t t' [=]].
  - cbn [dialTimes omap]. fold (dialTimes evs0). apply (Hmain _ Hd).
Qed.

(** With delays that never fall below a positive [InitialDelay], the dials
    of the loop fit into the budget. *)
Lemma retryLoop_dial_count fuel w c maxAt (d0 : Z) :
  0 < d0 ->
  (forall d, d0 <= d -> d0 <= nextDelay (retry c) d) ->
  forall k now d r evs,
    d0 <= d ->
    retryLoop fuel w c maxAt k now d (now + d) = Some (r, evs) ->
    Z.of_nat (length evs) * d0 <= Z.max 0 (maxAt - now).
Proof.
  intros Hd0 Hnext.
  induction fuel as [|fuel IH]; intros k now d r evs Hd; cbn [retryLoop];
    [discriminate | ].
  destruct (selectTimers now maxAt (now + d) (pickMax w k)) as [[|] t0] eqn:Hsel.
  - intros [= <- <-]. cbn. lia.
  - apply selectTimers_backoff in Hsel as [-> Hle]; [ | lia].
    destruct (dialResult w k) as [conn res|res].
    + intros [= <- <-]. cbn [length]. lia.
    + destruct (negb (shouldRetry res)).
      * intros [= <- <-]. cbn [length]. lia.
      * destruct (retryLoop fuel w c maxAt (S k) _ _ _) as [[r' evs']|] eqn:E;
          [ | discriminate].
        intros [= <- <-]. cbn [length].
        pose proof (IH _ _ _ _ _ (Hnext _ Hd) E) as Hrec.
        pose proof (Nat2Z.is_nonneg (dialTime w k)).
        pose proof (Nat2Z.is_nonneg (length evs')).
        rewrite Nat2Z.inj_succ. nia.
Qed.

(** X6. When the delays never fall below a positive [InitialDelay], the
    number of retries is bounded by the budget: the retries, [InitialDelay]
    apart at least, fit into [MaxElapsedTime]. *)
Theorem connectWithRetry_retry_count (fuel : nat) (w : World)
    (c c' : Client) (r : ConnResult) (evs : list Event) :
  connectWithRetry fuel w c = Some (c', r, evs) ->
  0 < InitialDelay (retry c') ->
  (forall d, InitialDelay (retry c') <= d ->
             InitialDelay (retry c') <= nextDelay (retry c') d) ->
  Z.of_nat (pred (length (dialTimes evs))) * InitialDelay (retry c')
    <= Z.max 0 (MaxElapsedTime (retry c')).
Proof.
  intros H Hpos Hnext.
  assert (Hmain : forall evs0,
            dialFirst fuel w c' = Some (r, evs0) ->
            Z.of_nat (pred (length (dialTimes evs0))) * InitialDelay (retry c')
              <= Z.max 0 (MaxElapsedTime (retry c'))).
  { intros evs0. unfold dialFirst, retryConn.
    destruct (dialResult w 0) as [conn res|res].
    - intros [= <- <-]. cbn. lia.
    - destruct (shouldRetry res).
      + destruct (retryLoop fuel w c' _ 1 _ _ _) as [[r' evs']|] eqn:E;
          [ | discriminate].
        intros [= <- <-].
        change (dialTimes (EvDial (startTime w) (proxyAddr c') (dialHeader c') :: evs'))
          with (startTime w :: dialTimes evs').
        cbn [length pred].
        destruct (retryLoop_outcome _ _ _ _ _ _ _ _ _ _ E) as (_ & Hl & _).
        rewrite Hl.
        pose proof (retryLoop_dial_count _ _ _ _ _ Hpos Hnext _ _ _ _ _
                      (Z.le_refl _) E) as Hc.
        lia.
      + destruct (isAuthError res); intros [= <- <-]; cbn; lia. }
  destruct (connectWithRetry_inv _ _ _ _ _ _ H)
    as [(Ht & -> & Hd) | [(Ht & _ & -> & -> & ->) | (Ht & config & evs0 & _ & -> & Hd & ->)]].
  - apply (Hmain _ Hd).
  - cbn. lia.
  - cbn [dialTimes omap]. fold (dialTimes evs0). apply (Hmain _ Hd).
Qed.

End Connector.

(** * Further properties of the client *)

Section StateMachine.

Context {ext : External}.

(** Counting the pending repairs. *)
Lemma repairs_app (c c1 c2 : Client) (p q : list Thread) :
  repairsPending (mkSystem c (p ++ q))
  = (repairsPending (mkSystem c1 p) + repairsPending (mkSystem c2 q))%nat.
Proof.
  unfold repairsPending. cbn [pending]. rewrite filter_app, length_app. reflexivity.
Qed.

Lemma repairs_delete (c c1 : Client) (p : list Thread) (i : nat) (x : Thread) :
  p !! i = Some x ->
  repairsPending (mkSystem c p)
  = ((if decide (x = Goroutine TaskReconnect) then 1 else 0)
     + repairsPending (mkSystem c1 (delete i p)))%nat.
Proof.
  intros Hi. unfold repairsPending. cbn [pending].
  rewrite <- (take_drop_middle p i x Hi) at 1.
  rewrite delete_take_drop, !filter_app, filter_cons, !length_app.
  destruct (decide (x = Goroutine TaskReconnect)); cbn [length]; lia.
Qed.

Lemma repairs_in (c : Client) (p : list Thread) :
  Goroutine TaskReconnect ∈ p -> (1 <= repairsPending (mkSystem c p))%nat.
Proof.
  unfold repairsPending. cbn [pending]. intros Hin.
  assert (Hf : Goroutine TaskReconnect ∈ filter (fun t => t = Goroutine TaskReconnect) p)
    by (apply list_elem_of_filter; auto).
  destruct (filter _ p); [inversion Hf | cbn; lia].
Qed.

(** What the locked region of [Accept] can do. *)
Lemma acceptLocked_cases sa c c' r evs :
  acceptLocked sa c = Some (c', r, evs) ->
  (c' = c /\ spawned evs = [] /\
   ((exists st, r = (Some st, None) /\ state c = stateRunning
                /\ exists x, session c = Some x /\ sa x = Some st
                             /\ evs = [EvSessionAccept x])
    \/ (r = (None, acceptErr c) /\ state c <> stateRunning /\ evs = [])))
  \/ (state c = stateRunning
      /\ c' = set_acceptErr (Some ErrClientReconnecting) (set_state stateBroken c)
      /\ r = (None, Some ErrClientReconnecting)
      /\ spawned evs = [Goroutine TaskReconnect]
      /\ exists x, session c = Some x /\ sa x = None
                   /\ evs = [EvSessionAccept x; EvGo TaskReconnect]).
Proof.
  unfold acceptLocked. destruct (state c) eqn:Hst.
  - destruct (session c) as [x|] eqn:Hs; [ | discriminate].
    destruct (sa x) as [st|] eqn:Hsa; intros [= <- <- <-].
    + left. split; [reflexivity | ]. split; [reflexivity | ]. left. eauto 10.
    + right. split; [reflexivity | ]. split; [reflexivity | ].
      split; [reflexivity | ]. split; [reflexivity | ]. eauto.
  - intros [= <- <- <-]. left. split; [reflexivity | ]. split; [reflexivity | ].
    right. split; [reflexivity | ]. split; [discriminate | reflexivity].
  - intros [= <- <- <-]. left. split; [reflexivity | ]. split; [reflexivity | ].
    right. split; [reflexivity | ]. split; [discriminate | reflexivity].
Qed.

(** What [reconnect] can do. *)
Lemma reconnect_cases fuel w c c' evs :
  reconnect fuel w c = Some (c', evs) ->
  spawned evs = []
  /\ closed c' = closed c
  /\ ((state c' = stateRunning /\ acceptErr c' = None
       /\ is_Some (session c') /\ is_Some (url c')
       /\ exists c1 conn u evs1,
            connectWithRetry fuel w c = Some (c1, ConnOk conn u, evs1))
      \/ (state c' = state c /\ acceptErr c' = Some ErrRetryFailed
          /\ session c' = session c /\ url c' = url c
          /\ sessionsClosed evs = []
          /\ exists c1 e, connectWithRetry fuel w c = Some (c1, ConnErr e, evs))).
Proof.
  intros Hr. split; [ | split; [exact (reconnect_closed _ _ _ _ _ Hr) | ]];
    revert Hr; unfold reconnect;
    destruct (connectWithRetry fuel w c) as [[[c1 [conn u|e]] evs1]|] eqn:Hc;
    try discriminate;
    pose proof (connectWithRetry_events _ _ _ _ _ _ Hc) as Hev;
    destruct (connectWithRetry_frame _ _ _ _ _ _ Hc) as (Hs & Hu & Hst & Hcl & He).
  - destruct (session c1) as [old|]; intros [= <- <-].
    + unfold spawned. rewrite omap_app. cbn. rewrite app_nil_r.
      apply (connectorEvents_quiet old), Hev.
    + rewrite app_nil_r. apply (connectorEvents_quiet (mkSession 0%nat (mkWsmuxConfig 0))), Hev.
  - intros [= <- <-]. apply (connectorEvents_quiet (mkSession 0%nat (mkWsmuxConfig 0))), Hev.
  - destruct (session c1) as [old|]; intros [= <- <-]; left; cbn;
      repeat (split; [reflexivity || eauto | ]); eauto 10.
  - intros [= <- <-]. right. cbn.
    split; [exact Hst | ]. split; [reflexivity | ]. split; [exact Hs | ].
    split; [exact Hu | ]. split; [ | eauto].
    clear -Hev. induction Hev as [|e evs He _ IH]; [reflexivity | ].
    destruct e; cbn in He; try contradiction; exact IH.
Qed.

Lemma repairs_notin (c : Client) (p : list Thread) :
  Goroutine TaskReconnect ∉ p -> repairsPending (mkSystem c p) = 0%nat.
Proof.
  unfold repairsPending. cbn [pending].
  induction p as [|t p IH]; [reflexivity | ].
  intros Hnot. rewrite filter_cons.
  destruct (decide (t = Goroutine TaskReconnect)) as [-> | _].
  - exfalso. apply Hnot. left.
  - apply IH. intros Hin. apply Hnot. right. exact Hin.
Qed.

Lemma repairs_single (c : Client) (t : Thread) :
  repairsPending (mkSystem c [t])
  = (if decide (t = Goroutine TaskReconnect) then 1 else 0)%nat.
Proof.
  unfold repairsPending. cbn [pending]. rewrite filter_cons, filter_nil.
  destruct (decide (t = Goroutine TaskReconnect)); reflexivity.
Qed.

Lemma repairs_delete_le (c : Client) (p : list Thread) : forall i,
  (repairsPending (mkSystem c (delete i p)) <= repairsPending (mkSystem c p))%nat.
Proof.
  unfold repairsPending. cbn [pending].
  induction p as [|t p IH]; intros [|i]; cbn [delete list_delete]; try lia.
  - rewrite filter_cons. destruct (decide (t = _)); cbn [length]; lia.
  - rewrite !filter_cons. specialize (IH i).
    destruct (decide (t = _)); cbn [length]; [apply le_n_S | ]; exact IH.
Qed.

(** The steps keep the shape of the client, one kind of change at a time. *)
Lemma wf_delete c p i :
  wellFormed (mkSystem c p) -> wellFormed (mkSystem c (delete i p)).
Proof.
  intros (Hs & Hu & Hnc & Hcnt & Hrep & Hbr & Hrun & Hcln).
  pose proof (list_subseteq_delete i p) as Hsub.
  refine (conj Hs (conj Hu (conj Hnc (conj _ (conj _ (conj Hbr (conj Hrun _))))))).
  - pose proof (repairs_delete_le c p i). lia.
  - intros Hin. apply Hrep, Hsub, Hin.
  - intros Hin. apply Hcln, Hsub, Hin.
Qed.

Lemma wf_add_caller c p t :
  t = InAccept \/ t = InClose ->
  wellFormed (mkSystem c p) -> wellFormed (mkSystem c (p ++ [t])).
Proof.
  intros Ht (Hs & Hu & Hnc & Hcnt & Hrep & Hbr & Hrun & Hcln).
  refine (conj Hs (conj Hu (conj Hnc (conj _ (conj _ (conj Hbr (conj Hrun _))))))).
  - rewrite (repairs_app c c c), repairs_single.
    destruct (decide (t = Goroutine TaskReconnect)) as [-> | _];
      [destruct Ht; discriminate | ].
    rewrite Nat.add_0_r. exact Hcnt.
  - intros [Hin | Hin%list_elem_of_singleton]%elem_of_app;
      [exact (Hrep Hin) | destruct Ht; congruence].
  - intros [Hin | Hin%list_elem_of_singleton]%elem_of_app;
      [exact (Hcln Hin) | destruct Ht; congruence].
Qed.

Lemma wf_break c p :
  state c = stateRunning ->
  wellFormed (mkSystem c p) ->
  wellFormed (mkSystem (set_acceptErr (Some ErrClientReconnecting)
                                      (set_state stateBroken c))
                       (p ++ [Goroutine TaskReconnect])).
Proof.
  intros Hst (Hs & Hu & Hnc & Hcnt & Hrep & Hbr & Hrun & Hcln).
  cbn in *.
  assert (Hnot : Goroutine TaskReconnect ∉ p).
  { intros Hin. specialize (Hrep Hin). congruence. }
  refine (conj Hs (conj Hu (conj _ (conj _ (conj _ (conj _ (conj _ _))))))).
  - discriminate.
  - rewrite (repairs_app _ c c), (repairs_notin c p Hnot), repairs_single.
    destruct (decide (Goroutine TaskReconnect = Goroutine TaskReconnect)); lia.
  - reflexivity.
  - eauto.
  - discriminate.
  - intros [Hin | Hin%list_elem_of_singleton]%elem_of_app;
      [exact (Hcln Hin) | discriminate].
Qed.

Lemma wf_close c p :
  wellFormed (mkSystem c p) ->
  wellFormed (mkSystem (set_closed true c) (p ++ [Goroutine TaskCloseCleanup])).
Proof.
  intros (Hs & Hu & Hnc & Hcnt & Hrep & Hbr & Hrun & Hcln).
  cbn in *.
  refine (conj Hs (conj Hu (conj Hnc (conj _ (conj _ (conj Hbr (conj _ _))))))).
  - rewrite (repairs_app _ c c), repairs_single.
    destruct (decide (Goroutine TaskCloseCleanup = Goroutine TaskReconnect));
      [discriminate | ].
    rewrite Nat.add_0_r. exact Hcnt.
  - intros [Hin | Hin%list_elem_of_singleton]%elem_of_app;
      [exact (Hrep Hin) | discriminate].
  - discriminate.
  - reflexivity.
Qed.

Lemma wf_cleanup c p :
  closed c = true ->
  wellFormed (mkSystem c p) ->
  wellFormed (mkSystem (set_acceptErr (Some ErrClientClosed) c) p).
Proof.
  intros Hcl (Hs & Hu & Hnc & Hcnt & Hrep & Hbr & Hrun & Hcln).
  cbn in *.
  refine (conj Hs (conj Hu (conj Hnc (conj Hcnt (conj Hrep (conj _ (conj _ Hcln))))))).
  - eauto.
  - intros _ H. cbn in H. congruence.
Qed.

Lemma wf_repaired c c' p i :
  p !! i = Some (Goroutine TaskReconnect) ->
  closed c' = closed c ->
  is_Some (session c') -> is_Some (url c') ->
  (state c' = stateRunning /\ acceptErr c' = None)
  \/ (state c' = state c /\ is_Some (acceptErr c')) ->
  wellFormed (mkSystem c p) ->
  wellFormed (mkSystem c' (delete i p)).
Proof.
  intros Hi Hcl Hs' Hu' Hcase (Hs & Hu & Hnc & Hcnt & Hrep & Hbr & Hrun & Hcln).
  cbn [client pending] in *.
  pose proof (list_subseteq_delete i p) as Hsub.
  assert (Hbroken : state c = stateBroken).
  { apply Hrep. eapply list_elem_of_lookup_2. exact Hi. }
  assert (Hzero : repairsPending (mkSystem c' (delete i p)) = 0%nat).
  { rewrite (repairs_delete c c' p i _ Hi) in Hcnt.
    destruct (decide (Goroutine TaskReconnect = Goroutine TaskReconnect));
      [lia | congruence]. }
  assert (Hnot : Goroutine TaskReconnect ∉ delete i p).
  { intros Hin. apply (repairs_in c') in Hin. lia. }
  refine (conj Hs' (conj Hu' (conj _ (conj _ (conj _ (conj _ (conj _ _)))))));
    cbn [client pending].
  - destruct Hcase as [[H _] | [H _]]; rewrite H; congruence.
  - lia.
  - intros Hin. contradiction.
  - destruct Hcase as [[Hr _] | [_ He]]; [congruence | auto].
  - destruct Hcase as [[_ He] | [Hst _]]; [auto | congruence].
  - intros Hin. rewrite Hcl. apply Hcln, Hsub, Hin.
Qed.

(** Every step keeps the shape of the client. *)
Lemma exec_wellFormed l s s' o evs :
  wellFormed s -> exec l s = Some (s', o, evs) -> wellFormed s'.
Proof.
  destruct s as [c p]. intros Hwf.
  destruct l as [sa| | | |i sa|i fuel w]; cbn [exec client pending].
  - unfold Accept. destruct (closed c) eqn:Hcl.
    + intros [= <- <- <-]. cbn. rewrite app_nil_r. exact Hwf.
    + destruct (acceptLocked sa c) as [[[c1 r] evs1]|] eqn:Ha; [ | discriminate].
      intros [= <- <- <-].
      destruct (acceptLocked_cases _ _ _ _ _ Ha)
        as [(-> & -> & _) | (Hst & -> & _ & -> & _)].
      * rewrite app_nil_r. exact Hwf.
      * apply wf_break; assumption.
  - unfold Close, closeDefault. destruct (closed c) eqn:Hcl; intros [= <- <- <-].
    + cbn. rewrite app_nil_r. exact Hwf.
    + apply wf_close, Hwf.
  - destruct (closed c); intros [= <- <- <-];
      [exact Hwf | apply wf_add_caller; auto].
  - destruct (closed c); intros [= <- <- <-];
      [exact Hwf | apply wf_add_caller; auto].
  - destruct (p !! i) as [[t| |]|] eqn:Hi; try discriminate.
    + destruct (acceptLocked sa c) as [[[c1 r] evs1]|] eqn:Ha; [ | discriminate].
      intros [= <- <- <-].
      destruct (acceptLocked_cases _ _ _ _ _ Ha)
        as [(-> & -> & _) | (Hst & -> & _ & -> & _)].
      * rewrite app_nil_r. apply wf_delete, Hwf.
      * apply wf_break; [assumption | apply wf_delete, Hwf].
    + unfold closeDefault. destruct (closed c) eqn:Hcl; [discriminate | ].
      intros [= <- <- <-]. apply wf_close, wf_delete, Hwf.
  - destruct (p !! i) as [[[|]| |]|] eqn:Hi; try discriminate.
    + destruct (reconnect fuel w c) as [[c1 evs1]|] eqn:Hr; [ | discriminate].
      intros [= <- <- <-].
      destruct (reconnect_cases _ _ _ _ _ Hr) as (-> & Hcl & Hcase).
      rewrite app_nil_r.
      destruct Hwf as (Hs & Hu & Hrest).
      apply (wf_repaired c c1 p i Hi Hcl).
      * destruct Hcase as [(_ & _ & H & _) | (_ & _ & -> & _)]; assumption.
      * destruct Hcase as [(_ & _ & _ & H & _) | (_ & _ & _ & -> & _)]; assumption.
      * destruct Hcase as [(H1 & H2 & _) | (H1 & H2 & _)];
          [left; auto | right; split; [exact H1 | rewrite H2; eauto]].
      * exact (conj Hs (conj Hu Hrest)).
    + unfold closeCleanup. cbn [session set_acceptErr].
      destruct (session c) as [old|] eqn:Hs; [ | discriminate].
      intros [= <- <- <-]. cbn [spawned omap]. rewrite app_nil_r.
      assert (Hcl : closed c = true).
      { destruct Hwf as (_ & _ & _ & _ & _ & _ & _ & Hcln).
        apply Hcln. eapply list_elem_of_lookup_2. exact Hi. }
      apply wf_delete. apply (wf_cleanup c p Hcl Hwf).
Qed.

Lemma run_wellFormed ls : forall s s' os evs,
  wellFormed s -> run ls s = Some (s', os, evs) -> wellFormed s'.
Proof.
  induction ls as [|l ls IH]; intros s s' os evs Hwf; cbn [run].
  - intros [= <- <- <-]. exact Hwf.
  - destruct (exec l s) as [[[s1 o] evs1]|] eqn:He; [ | discriminate].
    destruct (run ls s1) as [[[s2 os2] evs2]|] eqn:Hr; [ | discriminate].
    intros [= <- <- <-].
    eapply IH; [ | exact Hr]. eapply exec_wellFormed; eassumption.
Qed.

(** X7. A client returned by [New] is running, not shut down and has no
    stored error; its session is built, with the zero configuration, on the
    connection of the last dial, which succeeded, and [URL] returns the URL
    that dial's response carries; the configurer was asked once or twice. *)
Theorem New_returns_running_client (fuel : nat) (first : ConfigurerResult)
    (w : World) (cl : Client) (evs : list Event) :
  New fuel first w = Some (inl cl, evs) ->
  state cl = stateRunning /\ closed cl = false /\ acceptErr cl = None
  /\ (1 <= configurerCalls evs <= 2)%nat
  /\ (1 <= length (dialTimes evs))%nat
  /\ exists conn res,
       dialResult w (pred (length (dialTimes evs))) = DialOk conn res
       /\ session cl = Some (wsmux_Client conn (mkWsmuxConfig 0))
       /\ URL cl = Some (Header_Get (Header res) "x-webhooktunnel-client-url").
Proof.
  unfold New. destruct first as [config|]; [ | discriminate].
  destruct (connectWithRetry fuel w (setConfig config emptyClient))
    as [[[c1 [conn u|e]] evs1]|] eqn:Hc; try discriminate.
  intros [= <- <-].
  destruct (connectWithRetry_frame _ _ _ _ _ _ Hc) as (_ & _ & Hst & Hcl & He).
  cbn [state closed acceptErr set_session set_url session url URL].
  split; [exact Hst | ]. split; [exact Hcl | ]. split; [exact He | ].
  change (dialTimes (EvConfigurer :: evs1)) with (dialTimes evs1).
  change (configurerCalls (EvConfigurer :: evs1)) with (S (configurerCalls evs1)).
  destruct (connectWithRetry_inv _ _ _ _ _ _ Hc)
    as [(Ht & -> & Hd) | [(Ht & _ & _ & [=] & _) | (Ht & config' & evs0 & _ & -> & Hd & ->)]];
    destruct (dialFirst_outcome _ _ _ _ _ Hd) as (Hcc & Hl & Hn & _ & _ & res & Hres & Hu).
  - rewrite Hcc, Hl. split; [lia | ]. split; [exact Hn | ].
    exists conn, res. subst u. auto.
  - change (dialTimes (EvConfigurer :: evs0)) with (dialTimes evs0).
    change (configurerCalls (EvConfigurer :: evs0)) with (S (configurerCalls evs0)).
    rewrite Hcc, Hl. split; [lia | ]. split; [exact Hn | ].
    exists conn, res. subst u. auto.
Qed.

(** X8. Whatever is scheduled after [New] returned a client, between two
    steps the client has a session and a stored URL, its state is never
    [stateClosed], at most one repair is pending and only while the client is
    broken, a broken client has a stored error, and a running client that was
    not shut down has none. *)
Theorem reachable_wellFormed (fuel : nat) (first : ConfigurerResult)
    (w : World) (cl : Client) (evs0 : list Event) (ls : list Call)
    (s' : System) (os : list Obs) (evs : list Event) :
  New fuel first w = Some (inl cl, evs0) ->
  run ls (mkSystem cl []) = Some (s', os, evs) ->
  wellFormed s'.
Proof.
  intros HN Hrun. eapply run_wellFormed; [ | exact Hrun].
  revert HN. unfold New. destruct first as [config|]; [ | discriminate].
  destruct (connectWithRetry fuel w (setConfig config emptyClient))
    as [[[c1 [conn u|e]] evs1]|] eqn:Hc; try discriminate.
  intros [= <- <-].
  destruct (connectWithRetry_frame _ _ _ _ _ _ Hc) as (_ & _ & Hst & Hcl & He).
  unfold wellFormed, repairsPending.
  cbn [client pending state closed acceptErr set_session set_url session url].
  cbn in Hst, Hcl, He. rewrite Hst, He.
  refine (conj _ (conj _ (conj _ (conj _ (conj _ (conj _ (conj _ _))))))).
  - eauto.
  - eauto.
  - discriminate.
  - cbn. lia.
  - intros Hin. inversion Hin.
  - discriminate.
  - reflexivity.
  - intros Hin. inversion Hin.
Qed.

(** X9. On such a client no call panics: [Accept], [Close] and the clean-up
    goroutine of [Close] always find the session they dereference, an
    [Accept] that waited for the lock completes, and [URL] finds a stored
    string. *)
Theorem wellFormed_never_panics (s : System) :
  wellFormed s ->
  (forall sa, is_Some (exec (CallAccept sa) s))
  /\ is_Some (exec CallClose s)
  /\ (forall i sa, pending s !! i = Some InAccept -> is_Some (exec (Resume i sa) s))
  /\ (forall i fuel w, pending s !! i = Some (Goroutine TaskCloseCleanup) ->
        is_Some (exec (RunTask i fuel w) s))
  /\ is_Some (URL (client s)).
Proof.
  intros ([x Hs] & Hu & _).
  assert (Hacc : forall sa, is_Some (acceptLocked sa (client s))).
  { intros sa. unfold acceptLocked. rewrite Hs.
    destruct (state (client s)); [destruct (sa x) | | ]; eauto. }
  refine (conj _ (conj _ (conj _ (conj _ Hu)))).
  - intros sa. cbn [exec]. unfold Accept.
    destruct (closed (client s)); [eauto | ].
    destruct (Hacc sa) as [[[c r] evs] ->]. eauto.
  - cbn [exec]. unfold Close, closeDefault. destruct (closed (client s)); eauto.
  - intros i sa Hi. cbn [exec]. rewrite Hi.
    destruct (Hacc sa) as [[[c r] evs] ->]. eauto.
  - intros i fuel w Hi. cbn [exec]. rewrite Hi. unfold closeCleanup.
    cbn [session set_acceptErr]. rewrite Hs. eauto.
Qed.

(** X10. On such a client every [Accept], whole or resumed after waiting for
    the lock, returns a stream or an error and never both or neither. *)
Theorem Accept_returns_stream_or_error (l : Call) (s s' : System) (o : Obs)
    (evs : list Event) :
  wellFormed s ->
  exec l s = Some (s', o, evs) ->
  match o with
  | ObsAccept r | ObsResumedAccept r => oneOf r
  | _ => True
  end.
Proof.
  intros (_ & _ & Hnc & _ & _ & Hbr & _).
  assert (Hacc : forall sa c r evs1,
            acceptLocked sa (client s) = Some (c, r, evs1) -> oneOf r).
  { intros sa c r evs1 Ha.
    destruct (acceptLocked_cases _ _ _ _ _ Ha)
      as [(_ & _ & [(st & -> & _) | (-> & Hst & _)]) | (_ & _ & -> & _)].
    - left. cbn. eauto.
    - right. cbn. split; [reflexivity | ]. apply Hbr.
      destruct (state (client s)); congruence.
    - right. cbn. eauto. }
  destruct l as [sa| | | |i sa|i fuel w]; cbn [exec].
  - unfold Accept. destruct (closed (client s)).
    + intros [= <- <- <-]. right. cbn. eauto.
    + destruct (acceptLocked sa (client s)) as [[[c r] evs1]|] eqn:Ha; [ | discriminate].
      intros [= <- <- <-]. eapply Hacc; eassumption.
  - destruct (Close (client s)) as [[[c r] evs1]|]; [ | discriminate].
    intros [= <- <- <-]. exact I.
  - destruct (closed (client s)); intros [= <- <- <-]; [ | exact I].
    right. cbn. eauto.
  - destruct (closed (client s)); intros [= <- <- <-]; exact I.
  - destruct (pending s !! i) as [[t| |]|]; try discriminate.
    + destruct (acceptLocked sa (client s)) as [[[c r] evs1]|] eqn:Ha; [ | discriminate].
      intros [= <- <- <-]. eapply Hacc; eassumption.
    + destruct (closeDefault (client s)) as [[[c r] evs1]|]; [ | discriminate].
      intros [= <- <- <-]. exact I.
  - destruct (pending s !! i) as [[[|]| |]|]; try discriminate.
    + destruct (reconnect fuel w (client s)) as [[c evs1]|]; [ | discriminate].
      intros [= <- <- <-]. exact I.
    + destruct (closeCleanup (client s)) as [[c evs1]|]; [ | discriminate].
      intros [= <- <- <-]. exact I.
Qed.

Ltac finish_frame :=
  repeat split; auto; try (repeat constructor; discriminate).

(** A broken client with no repair pending stays so through every step. *)
Lemma exec_broken_unrepaired l s s' o evs :
  state (client s) = stateBroken ->
  Goroutine TaskReconnect ∉ pending s ->
  exec l s = Some (s', o, evs) ->
  state (client s') = stateBroken
  /\ (Goroutine TaskReconnect ∉ pending s')
  /\ session (client s') = session (client s)
  /\ url (client s') = url (client s)
  /\ noStream o
  /\ dialTimes evs = []
  /\ Forall (fun e => forall x, e <> EvSessionAccept x) evs.
Proof.
  destruct s as [c p]. cbn [client pending]. intros Hst Hnot.
  pose proof (list_subseteq_delete (A := Thread)) as Hsub.
  assert (Hacc : forall sa c1 r evs1,
            acceptLocked sa c = Some (c1, r, evs1) ->
            c1 = c /\ fst r = None /\ evs1 = []).
  { intros sa c1 r evs1 Ha.
    destruct (acceptLocked_cases _ _ _ _ _ Ha)
      as [(-> & _ & [(st & _ & Hr & _) | (-> & _ & ->)]) | (Hr & _)];
      try congruence.
    auto. }
  destruct l as [sa| | | |i sa|i fuel w]; cbn [exec client pending].
  - unfold Accept. destruct (closed c).
    + intros [= <- <- <-]. cbn. rewrite app_nil_r. finish_frame.
    + destruct (acceptLocked sa c) as [[[c1 r] evs1]|] eqn:Ha; [ | discriminate].
      intros [= <- <- <-].
      destruct (Hacc _ _ _ _ Ha) as (-> & Hr & ->).
      cbn. rewrite app_nil_r. finish_frame.
  - unfold Close, closeDefault. destruct (closed c); intros [= <- <- <-]; cbn.
    + rewrite app_nil_r. finish_frame.
    + split; [exact Hst | ]. split.
      * intros [Hin | Hin%list_elem_of_singleton]%elem_of_app;
          [contradiction | discriminate].
      * finish_frame.
  - destruct (closed c); intros [= <- <- <-]; cbn.
    + finish_frame.
    + split; [exact Hst | ]. split.
      * intros [Hin | Hin%list_elem_of_singleton]%elem_of_app;
          [contradiction | discriminate].
      * finish_frame.
  - destruct (closed c); intros [= <- <- <-]; cbn.
    + finish_frame.
    + split; [exact Hst | ]. split.
      * intros [Hin | Hin%list_elem_of_singleton]%elem_of_app;
          [contradiction | discriminate].
      * finish_frame.
  - destruct (p !! i) as [[t| |]|] eqn:Hi; try discriminate.
    + destruct (acceptLocked sa c) as [[[c1 r] evs1]|] eqn:Ha; [ | discriminate].
      intros [= <- <- <-].
      destruct (Hacc _ _ _ _ Ha) as (-> & Hr & ->).
      cbn. rewrite app_nil_r. split; [exact Hst | ]. split.
      * intros Hin. apply Hnot, (Hsub i p), Hin.
      * finish_frame.
    + unfold closeDefault. destruct (closed c); [discriminate | ].
      intros [= <- <- <-]. cbn. split; [exact Hst | ]. split.
      * intros [Hin | Hin%list_elem_of_singleton]%elem_of_app;
          [apply Hnot, (Hsub i p), Hin | discriminate].
      * finish_frame.
  - destruct (p !! i) as [[[|]| |]|] eqn:Hi; try discriminate.
    + exfalso. apply Hnot. eapply list_elem_of_lookup_2. exact Hi.
    + unfold closeCleanup. cbn [session set_acceptErr].
      destruct (session c) as [old|] eqn:Hs; [ | discriminate].
      intros [= <- <- <-]. cbn. rewrite app_nil_r.
      split; [exact Hst | ]. split.
      * intros Hin. apply Hnot, (Hsub i p), Hin.
      * finish_frame.
Qed.

Lemma run_broken_unrepaired ls : forall s s' os evs,
  state (client s) = stateBroken ->
  Goroutine TaskReconnect ∉ pending s ->
  run ls s = Some (s', os, evs) ->
  state (client s') = stateBroken
  /\ (Goroutine TaskReconnect ∉ pending s')
  /\ session (client s') = session (client s)
  /\ url (client s') = url (client s)
  /\ Forall noStream os
  /\ dialTimes evs = []
  /\ Forall (fun e => forall x, e <> EvSessionAccept x) evs.
Proof.
  induction ls as [|l ls IH]; intros s s' os evs Hst Hnot; cbn [run].
  - intros [= <- <- <-]. repeat split; auto.
  - destruct (exec l s) as [[[s1 o] evs1]|] eqn:He; [ | discriminate].
    destruct (run ls s1) as [[[s2 os2] evs2]|] eqn:Hr; [ | discriminate].
    intros [= <- <- <-].
    destruct (exec_broken_unrepaired _ _ _ _ _ Hst Hnot He)
      as (Hst1 & Hnot1 & Hs1 & Hu1 & Ho1 & Hd1 & He1).
    destruct (IH _ _ _ _ Hst1 Hnot1 Hr)
      as (Hst2 & Hnot2 & Hs2 & Hu2 & Ho2 & Hd2 & He2).
    split; [exact Hst2 | ]. split; [exact Hnot2 | ].
    split; [congruence | ]. split; [congruence | ].
    split; [constructor; assumption | ].
    split; [ | apply Forall_app; split; assumption].
    unfold dialTimes in *. rewrite omap_app, Hd1, Hd2. reflexivity.
Qed.

(** X11. A repair that fails is the last one. After it the client is broken
    with no repair pending, and whatever is scheduled afterwards it stays
    broken on the same session and URL: no dial is made again, no session is
    asked for a stream, and no [Accept] returns a stream. *)
Theorem failed_repair_is_final (s : System) (i fuel : nat) (w : World)
    (c1 : Client) (e : netError) (evs1 : list Event) :
  wellFormed s ->
  pending s !! i = Some (Goroutine TaskReconnect) ->
  connectWithRetry fuel w (client s) = Some (c1, ConnErr e, evs1) ->
  exists s1,
  exec (RunTask i fuel w) s = Some (s1, ObsNone, evs1)
  /\ forall ls s2 os evs,
       run ls s1 = Some (s2, os, evs) ->
       state (client s2) = stateBroken
       /\ repairsPending s2 = 0%nat
       /\ session (client s2) = session (client s)
       /\ url (client s2) = url (client s)
       /\ dialTimes evs = []
       /\ Forall (fun e => forall x, e <> EvSessionAccept x) evs
       /\ Forall noStream os.
Proof.
  intros Hwf Hi Hc.
  pose proof (reconnect_failure _ _ _ _ _ _ Hc) as Hr.
  destruct (connectWithRetry_frame _ _ _ _ _ _ Hc) as (Hs & Hu & Hst & _).
  pose proof (connectWithRetry_events _ _ _ _ _ _ Hc) as Hev.
  destruct (connectorEvents_quiet (mkSession 0%nat (mkWsmuxConfig 0)) _ Hev) as [_ Hsp].
  assert (Hexec : exec (RunTask i fuel w) s
                  = Some (mkSystem (set_acceptErr (Some ErrRetryFailed) c1)
                                   (delete i (pending s)), ObsNone, evs1)).
  { cbn [exec]. rewrite Hi, Hr, Hsp, app_nil_r. reflexivity. }
  eexists. split; [exact Hexec | ].
  pose proof (exec_wellFormed _ _ _ _ _ Hwf Hexec) as Hwf1.
  destruct Hwf as (_ & _ & _ & Hcnt & Hrep & _).
  assert (Hbroken : state (client s) = stateBroken).
  { apply Hrep. eapply list_elem_of_lookup_2. exact Hi. }
  assert (Hnot : Goroutine TaskReconnect ∉ delete i (pending s)).
  { intros Hin. apply (repairs_in c1) in Hin.
    destruct s as [c p]. cbn [client pending] in *.
    rewrite (repairs_delete c c1 p i _ Hi) in Hcnt.
    destruct (decide (Goroutine TaskReconnect = Goroutine TaskReconnect));
      [lia | congruence]. }
  intros ls s2 os evs Hrun.
  destruct (run_broken_unrepaired ls
              (mkSystem (set_acceptErr (Some ErrRetryFailed) c1)
                        (delete i (pending s)))
              _ _ _ (eq_trans Hst Hbroken) Hnot Hrun)
    as (Hst2 & Hnot2 & Hs2 & Hu2 & Hos & Hd & He).
  cbn [client session url set_acceptErr] in Hs2, Hu2.
  split; [exact Hst2 | ].
  split; [destruct s2 as [c2 p2]; apply repairs_notin, Hnot2 | ].
  split; [congruence | ]. split; [congruence | ]. auto.
Qed.

(** X12. While its session hands out streams, a running client that was not
    shut down hands them on: [n] calls of [Accept] in a row return [n]
    streams, ask the session [n] times and leave client and goroutines as
    they were. *)
Theorem Accept_healthy_session (sa : Session -> option Stream) (c : Client)
    (p : list Thread) (x : Session) (st : Stream) (n : nat) :
  closed c = false ->
  state c = stateRunning ->
  session c = Some x ->
  sa x = Some st ->
  run (repeat (CallAccept sa) n) (mkSystem c p)
  = Some (mkSystem c p, repeat (ObsAccept (Some st, None)) n,
          repeat (EvSessionAccept x) n).
Proof.
  intros Hcl Hst Hs Hsa. induction n as [|n IH]; [reflexivity | ].
  cbn [repeat run exec client pending].
  unfold Accept, acceptLocked. rewrite Hcl, Hst, Hs, Hsa.
  cbn [spawned omap]. rewrite app_nil_r, IH. reflexivity.
Qed.

(** After the shutdown signal, with no repair, no clean-up and no [Accept]
    pending, a step changes nothing. *)
Lemma exec_frozen l s s' o evs :
  closed (client s) = true ->
  Goroutine TaskReconnect ∉ pending s ->
  Goroutine TaskCloseCleanup ∉ pending s ->
  InAccept ∉ pending s ->
  exec l s = Some (s', o, evs) ->
  s' = s /\ evs = [].
Proof.
  intros Hcl HR HC HA.
  destruct l as [sa| | | |i sa|i fuel w]; cbn [exec].
  - rewrite (Accept_after_shutdown sa _ Hcl). intros [= <- <- <-].
    cbn. rewrite app_nil_r, System_eta. auto.
  - rewrite (Close_after_shutdown _ Hcl). intros [= <- <- <-].
    cbn. rewrite app_nil_r, System_eta. auto.
  - rewrite Hcl. intros [= <- <- <-]. auto.
  - rewrite Hcl. intros [= <- <- <-]. auto.
  - destruct (pending s !! i) as [[t| |]|] eqn:Hi; try discriminate.
    + exfalso. apply HA. eapply list_elem_of_lookup_2. exact Hi.
    + unfold closeDefault. rewrite Hcl. discriminate.
  - destruct (pending s !! i) as [[[|]| |]|] eqn:Hi; try discriminate.
    + exfalso. apply HR. eapply list_elem_of_lookup_2. exact Hi.
    + exfalso. apply HC. eapply list_elem_of_lookup_2. exact Hi.
Qed.

Lemma run_frozen ls : forall s s' os evs,
  closed (client s) = true ->
  Goroutine TaskReconnect ∉ pending s ->
  Goroutine TaskCloseCleanup ∉ pending s ->
  InAccept ∉ pending s ->
  run ls s = Some (s', os, evs) ->
  s' = s /\ evs = [].
Proof.
  induction ls as [|l ls IH]; intros s s' os evs Hcl HR HC HA; cbn [run].
  - intros [= <- <- <-]. auto.
  - destruct (exec l s) as [[[s1 o] evs1]|] eqn:He; [ | discriminate].
    destruct (run ls s1) as [[[s2 os2] evs2]|] eqn:Hr; [ | discriminate].
    intros [= <- <- <-].
    destruct (exec_frozen _ _ _ _ _ Hcl HR HC HA He) as [-> ->].
    destruct (IH _ _ _ _ Hcl HR HC HA Hr) as [-> ->]. auto.
Qed.

(** X13. A clean shutdown. When [Close] is called on a client with no repair
    pending and no [Accept] under way, and its clean-up goroutine has run,
    the session was closed once and [ErrClientClosed] is stored; from then on
    nothing changes any more: every schedule leaves the client and what is
    pending as they are and produces no event (no second close of the
    session, no dial). *)
Theorem clean_shutdown_is_final (s : System) (x : Session) (fuel : nat)
    (w : World) :
  wellFormed s ->
  closed (client s) = false ->
  quiet s ->
  session (client s) = Some x ->
  exists s1,
    run [CallClose; RunTask (length (pending s)) fuel w] s
    = Some (s1, [ObsClose None; ObsNone],
            [EvCloseChan; EvGo TaskCloseCleanup; EvSessionClose x])
    /\ closed (client s1) = true
    /\ acceptErr (client s1) = Some ErrClientClosed
    /\ session (client s1) = Some x
    /\ pending s1 = pending s
    /\ forall ls s2 os evs,
         run ls s1 = Some (s2, os, evs) -> s2 = s1 /\ evs = [].
Proof.
  intros Hwf Hcl [HR HA] Hs.
  destruct s as [c p]. cbn [client pending] in *.
  exists (mkSystem (set_acceptErr (Some ErrClientClosed) (set_closed true c)) p).
  split.
  - cbn [run exec client pending]. unfold Close, closeDefault. rewrite Hcl.
    cbn [client pending].
    change (spawned [EvCloseChan; EvGo TaskCloseCleanup])
      with [Goroutine TaskCloseCleanup].
    rewrite (list_lookup_middle p [] (Goroutine TaskCloseCleanup) _ eq_refl).
    unfold closeCleanup. cbn [session set_acceptErr set_closed]. rewrite Hs.
    change (spawned [EvSessionClose x]) with (@nil Thread).
    rewrite (delete_middle p [] (Goroutine TaskCloseCleanup)), !app_nil_r.
    reflexivity.
  - split; [reflexivity | ]. split; [reflexivity | ]. split; [exact Hs | ].
    split; [reflexivity | ].
    intros ls s2 os evs Hrun.
    apply (run_frozen ls
             (mkSystem (set_acceptErr (Some ErrClientClosed) (set_closed true c)) p)
             _ _ _ eq_refl HR) in Hrun; [exact Hrun | | exact HA].
    destruct Hwf as (_ & _ & _ & _ & _ & _ & _ & Hcln).
    intros Hin. cbn [client pending] in Hcln. specialize (Hcln Hin). congruence.
Qed.

End StateMachine.

(** * Further properties of the client: [New] fails *)

Section NewFails.

Context {ext : External}.


End NewFails.

(** * Properties of utils.go *)

Section Utils.

Local Open Scope string_scope.
Local Abbreviation nl := (String newline EmptyString).

Lemma sapp_cons (a : Ascii.ascii) (s t : string) : String a s +:+ t = String a (s +:+ t).
Proof. reflexivity. Qed.

Lemma sapp_nil_l (s : string) : "" +:+ s = s.
Proof. reflexivity. Qed.

Lemma sapp_nil_r (s : string) : s +:+ "" = s.
Proof.
  induction s as [|a s IH]; [reflexivity | rewrite sapp_cons, IH; reflexivity].
Qed.

Lemma sapp_assoc (a b c : string) : (a +:+ b) +:+ c = a +:+ (b +:+ c).
Proof.
  induction a as [|x a IH]; [reflexivity | rewrite !sapp_cons, IH; reflexivity].
Qed.

Lemma slength_app (a b : string) :
  String.length (a +:+ b) = (String.length a + String.length b)%nat.
Proof.
  induction a as [|x a IH]; [reflexivity | ].
  rewrite sapp_cons. cbn [String.length]. rewrite IH. reflexivity.
Qed.

Lemma string_snoc (s : string) :
  s <> "" -> exists init c, s = init +:+ String c "".
Proof.
  induction s as [|a s IH]; [congruence | intros _].
  destruct s as [|b s].
  - exists "", a. reflexivity.
  - destruct IH as (init & c & ->); [discriminate | ].
    exists (String a init), c. reflexivity.
Qed.

Lemma substring_prefix (a b : string) :
  String.substring 0 (String.length a) (a +:+ b) = a.
Proof.
  induction a as [|x a IH].
  - rewrite sapp_nil_l. destruct b; reflexivity.
  - rewrite sapp_cons. cbn [String.length String.substring]. rewrite IH. reflexivity.
Qed.

Lemma substring_last (a : string) (c : Ascii.ascii) :
  String.substring (String.length a) 1 (a +:+ String c "") = String c "".
Proof.
  induction a as [|x a IH]; [reflexivity | ].
  rewrite sapp_cons. cbn [String.length String.substring]. exact IH.
Qed.

Lemma snoc_length (a : string) (c : Ascii.ascii) :
  (String.length (a +:+ String c "") - 1)%nat = String.length a.
Proof. rewrite slength_app. cbn [String.length]. lia. Qed.

Lemma snoc_not_empty (a : string) (c : Ascii.ascii) : a +:+ String c "" <> "".
Proof. destruct a; discriminate. Qed.

Lemma TrimRight_snoc (a : string) (c x : Ascii.ascii) :
  c <> x -> TrimRight (a +:+ String c "") x = a +:+ String c "".
Proof.
  intros Hc. induction a as [|y a IH].
  - rewrite sapp_nil_l. cbn [TrimRight].
    destruct (Ascii.eqb_spec c x); [contradiction | reflexivity].
  - rewrite sapp_cons. cbn [TrimRight]. rewrite IH.
    destruct (a +:+ String c "") eqn:E; [ | reflexivity].
    exfalso. exact (snoc_not_empty _ _ E).
Qed.

Lemma indentLoop_joinLines (indent : string) (lines : list string) :
  indentLoop indent lines = joinLines indent lines.
Proof.
  unfold indentLoop.
  assert (H : forall acc,
            fold_left (fun result j => result +:+ ((indent +:+ j) +:+ nl)) lines acc
            = acc +:+ joinLines indent lines).
  { induction lines as [|j lines IH]; intros acc; cbn [fold_left joinLines].
    - rewrite sapp_nil_r. reflexivity.
    - rewrite IH, sapp_assoc. reflexivity. }
  apply (H "").
Qed.

Lemma joinLines_sepLines (indent : string) (lines : list string) :
  lines <> [] -> joinLines indent lines = sepLines indent lines +:+ nl.
Proof.
  induction lines as [|j lines IH]; [congruence | intros _].
  destruct lines as [|k lines].
  - cbn [joinLines sepLines]. rewrite sapp_nil_r. reflexivity.
  - change (joinLines indent (j :: k :: lines))
      with (((indent +:+ j) +:+ nl) +:+ joinLines indent (k :: lines)).
    change (sepLines indent (j :: k :: lines))
      with (((indent +:+ j) +:+ nl) +:+ sepLines indent (k :: lines)).
    rewrite IH by discriminate. rewrite !sapp_assoc. reflexivity.
Qed.

Lemma Split_not_nil (s : string) (c : Ascii.ascii) : Split s c <> [].
Proof.
  destruct s as [|a s]; cbn [Split]; [discriminate | ].
  destruct (Ascii.eqb a c); [discriminate | ].
  destruct (Split s c); discriminate.
Qed.

Lemma Split_sep (s : string) (c : Ascii.ascii) :
  Split (String c s) c = "" :: Split s c.
Proof. cbn [Split]. rewrite Ascii.eqb_refl. reflexivity. Qed.

Lemma Split_app_clean (l s : string) (c : Ascii.ascii) :
  contains c l = false ->
  Split (l +:+ s) c
  = match Split s c with
    | hd :: tl => (l +:+ hd) :: tl
    | [] => []
    end.
Proof.
  destruct (Split s c) as [|hd tl] eqn:E; [exfalso; exact (Split_not_nil _ _ E) | ].
  induction l as [|a l IH]; cbn [contains].
  - intros _. rewrite !sapp_nil_l. exact E.
  - intros [Ha Hl]%orb_false_iff. rewrite !sapp_cons. cbn [Split].
    rewrite Ha, (IH Hl). reflexivity.
Qed.

Lemma Split_clean (l : string) (c : Ascii.ascii) :
  contains c l = false -> Split l c = [l].
Proof.
  intros H. rewrite <- (sapp_nil_r l) at 1. rewrite (Split_app_clean _ _ _ H).
  cbn [Split]. rewrite sapp_nil_r. reflexivity.
Qed.

Lemma Split_lines_clean (s : string) (c : Ascii.ascii) :
  Forall (fun l => contains c l = false) (Split s c).
Proof.
  induction s as [|a s IH]; cbn [Split].
  - repeat constructor.
  - destruct (Ascii.eqb a c) eqn:Ha.
    + constructor; [reflexivity | exact IH].
    + destruct (Split s c) as [|l ls];
        [repeat constructor; cbn [contains]; rewrite Ha; reflexivity | ].
      inversion IH as [|? ? Hl Hls]; subst.
      constructor; [cbn [contains]; rewrite Ha, Hl; reflexivity | exact Hls].
Qed.

Lemma contains_app (c : Ascii.ascii) (a b : string) :
  contains c (a +:+ b) = contains c a || contains c b.
Proof.
  induction a as [|x a IH]; [reflexivity | ].
  rewrite sapp_cons. cbn [contains]. rewrite IH, orb_assoc. reflexivity.
Qed.

Lemma Split_sepLines (indent : string) (lines : list string) :
  contains newline indent = false ->
  Forall (fun l => contains newline l = false) lines ->
  lines <> [] ->
  Split (sepLines indent lines) newline = map (String.append indent) lines.
Proof.
  intros Hi Hl. induction Hl as [|j lines Hj Hls IH]; [congruence | intros _].
  assert (Hij : contains newline (indent +:+ j) = false)
    by (rewrite contains_app, Hi, Hj; reflexivity).
  destruct lines as [|k lines].
  - cbn [sepLines map]. apply Split_clean, Hij.
  - change (sepLines indent (j :: k :: lines))
      with (((indent +:+ j) +:+ nl) +:+ sepLines indent (k :: lines)).
    rewrite sapp_assoc, (Split_app_clean _ _ _ Hij), sapp_cons, sapp_nil_l.
    rewrite Split_sep, sapp_nil_r, IH by discriminate. reflexivity.
Qed.

Lemma Split_snoc_sep (s : string) (c : Ascii.ascii) :
  Split (s +:+ String c "") c = (Split s c ++ [""])%list.
Proof.
  induction s as [|a s IH].
  - rewrite sapp_nil_l. cbn [Split]. rewrite Ascii.eqb_refl. reflexivity.
  - rewrite sapp_cons. cbn [Split]. rewrite IH.
    destruct (Ascii.eqb a c); [reflexivity | ].
    destruct (Split s c) eqn:E; [exfalso; exact (Split_not_nil _ _ E) | reflexivity].
Qed.

Lemma sepLines_Split (s : string) :
  sepLines "" (Split s newline) = s.
Proof.
  induction s as [|a s IH]; cbn [Split]; [reflexivity | ].
  destruct (Split s newline) as [|l ls] eqn:E;
    [exfalso; exact (Split_not_nil _ _ E) | ].
  destruct (Ascii.eqb_spec a newline) as [-> | Hne].
  - change (sepLines "" ("" :: l :: ls)) with (String newline (sepLines "" (l :: ls))).
    rewrite IH. reflexivity.
  - destruct ls as [|k ls].
    + cbn [sepLines] in *. rewrite sapp_nil_l in *. rewrite IH. reflexivity.
    + change (sepLines "" (String a l :: k :: ls))
        with (String a ((l +:+ nl) +:+ sepLines "" (k :: ls))).
      change (sepLines "" (l :: k :: ls))
        with ((l +:+ nl) +:+ sepLines "" (k :: ls)) in IH.
      rewrite IH. reflexivity.
Qed.

(** [Indent] on a text that ends with a newline, and on one that does not. *)
Lemma Indent_newline (body indent : string) :
  Indent (body +:+ nl) indent = joinLines indent (Split body newline).
Proof.
  unfold Indent.
  destruct (String.eqb_spec (body +:+ nl) "") as [E | _];
    [exfalso; exact (snoc_not_empty _ _ E) | ].
  rewrite snoc_length, substring_last, String.eqb_refl, substring_prefix.
  apply indentLoop_joinLines.
Qed.

Lemma Indent_plain (init indent : string) (c : Ascii.ascii) :
  c <> newline ->
  Indent (init +:+ String c "") indent
  = sepLines indent (Split (init +:+ String c "") newline).
Proof.
  intros Hc. unfold Indent.
  destruct (String.eqb_spec (init +:+ String c "") "") as [E | _];
    [exfalso; exact (snoc_not_empty _ _ E) | ].
  rewrite snoc_length, substring_last.
  destruct (String.eqb_spec (String c "") nl) as [[= E] | _]; [contradiction | ].
  rewrite (TrimRight_snoc _ _ _ Hc).
  cbv zeta. rewrite indentLoop_joinLines, joinLines_sepLines by apply Split_not_nil.
  rewrite snoc_length. apply substring_prefix.
Qed.

Lemma joinLines_map (a b : string) (lines : list string) :
  joinLines b (map (String.append a) lines) = joinLines (b +:+ a) lines.
Proof.
  induction lines as [|j lines IH]; cbn [map joinLines]; [reflexivity | ].
  rewrite IH, (sapp_assoc b a j). reflexivity.
Qed.

Lemma sepLines_map (a b : string) (lines : list string) :
  sepLines b (map (String.append a) lines) = sepLines (b +:+ a) lines.
Proof.
  induction lines as [|j lines IH]; [reflexivity | ].
  destruct lines as [|k lines].
  - cbn [map sepLines]. rewrite sapp_assoc. reflexivity.
  - change (sepLines b (map (String.append a) (j :: k :: lines)))
      with (((b +:+ (a +:+ j)) +:+ nl) +:+ sepLines b (map (String.append a) (k :: lines))).
    change (sepLines (b +:+ a) (j :: k :: lines))
      with ((((b +:+ a) +:+ j) +:+ nl) +:+ sepLines (b +:+ a) (k :: lines)).
    rewrite IH, (sapp_assoc b a j). reflexivity.
Qed.

(** Appending a byte that is not the separator extends the last piece. *)
Lemma Split_snoc_clean (s : string) (c sep : Ascii.ascii) :
  c <> sep ->
  exists front t,
    Split s sep = (front ++ [t])%list
    /\ Split (s +:+ String c "") sep = (front ++ [t +:+ String c ""])%list.
Proof.
  intros Hc. induction s as [|a s (front & t & E1 & E2)].
  - exists [], "". rewrite sapp_nil_l. cbn [Split].
    destruct (Ascii.eqb_spec c sep); [contradiction | auto].
  - rewrite sapp_cons. cbn [Split]. rewrite E1, E2.
    destruct (Ascii.eqb a sep).
    + exists ("" :: front), t. auto.
    + destruct front as [|f front]; cbn [app].
      * exists [], (String a t). auto.
      * exists (String a f :: front), t. auto.
Qed.

Lemma sepLines_last (indent : string) (front : list string) (u : string) :
  exists P, sepLines indent (front ++ [u])%list = P +:+ (indent +:+ u).
Proof.
  induction front as [|j front (P & IH)].
  - exists "". reflexivity.
  - destruct front as [|k front].
    + exists ((indent +:+ j) +:+ nl). reflexivity.
    + exists (((indent +:+ j) +:+ nl) +:+ P).
      change (sepLines indent ((j :: k :: front) ++ [u])%list)
        with (((indent +:+ j) +:+ nl) +:+ sepLines indent ((k :: front) ++ [u])%list).
      rewrite IH. symmetry. apply sapp_assoc.
Qed.

(** X14. Indenting with the empty string changes nothing. *)
Theorem Indent_empty_indent (text : string) : Indent text "" = text.
Proof.
  destruct (String.eqb_spec text "") as [-> | Hne]; [reflexivity | ].
  destruct (string_snoc text Hne) as (init & c & ->).
  destruct (Ascii.eqb_spec c newline) as [-> | Hc].
  - rewrite Indent_newline, joinLines_sepLines by apply Split_not_nil.
    rewrite sepLines_Split. reflexivity.
  - rewrite (Indent_plain _ _ _ Hc). apply sepLines_Split.
Qed.

(** X15. With an indent that holds no newline, [Indent] puts the indent in
    front of every line and keeps the lines and the final newline as they
    are: a text that ends with a newline keeps its empty last piece, which is
    not indented. *)
Theorem Indent_indents_every_line (indent : string) :
  contains newline indent = false ->
  (forall body,
     Split (Indent (body +:+ nl) indent) newline
     = (map (String.append indent) (Split body newline) ++ [""])%list)
  /\ (forall init c,
        c <> newline ->
        Split (Indent (init +:+ String c "") indent) newline
        = map (String.append indent) (Split (init +:+ String c "") newline)).
Proof.
  intros Hi. split.
  - intros body.
    rewrite Indent_newline, joinLines_sepLines by apply Split_not_nil.
    rewrite Split_snoc_sep, Split_sepLines;
      [reflexivity | exact Hi | apply Split_lines_clean | apply Split_not_nil].
  - intros init c Hc. rewrite (Indent_plain _ _ _ Hc).
    apply Split_sepLines;
      [exact Hi | apply Split_lines_clean | apply Split_not_nil].
Qed.

(** X16. Indenting twice is indenting once with both indents, the outer one
    first, when the inner indent holds no newline. *)
Theorem Indent_twice (text a b : string) :
  contains newline a = false ->
  Indent (Indent text a) b = Indent text (b +:+ a).
Proof.
  intros Ha.
  destruct (String.eqb_spec text "") as [-> | Hne]; [reflexivity | ].
  destruct (string_snoc text Hne) as (init & c & ->).
  destruct (Ascii.eqb_spec c newline) as [-> | Hc].
  - rewrite !Indent_newline.
    rewrite (joinLines_sepLines a) by apply Split_not_nil.
    rewrite Indent_newline, Split_sepLines;
      [ | exact Ha | apply Split_lines_clean | apply Split_not_nil].
    apply joinLines_map.
  - rewrite !(Indent_plain _ _ _ Hc).
    destruct (Split_snoc_clean init c newline Hc) as (front & t & _ & E).
    destruct (sepLines_last a front (t +:+ String c "")) as (P & EP).
    assert (EX : sepLines a (Split (init +:+ String c "") newline)
                 = (P +:+ (a +:+ t)) +:+ String c "").
    { rewrite E, EP, !sapp_assoc. reflexivity. }
    rewrite EX, (Indent_plain _ _ _ Hc), <- EX.
    rewrite Split_sepLines;
      [ | exact Ha | apply Split_lines_clean | apply Split_not_nil].
    apply sepLines_map.
Qed.

Lemma Repeat_length (s : string) (n : nat) :
  String.length (Repeat s n) = (n * String.length s)%nat.
Proof.
  induction n as [|n IH]; [reflexivity | ].
  cbn [Repeat]. rewrite slength_app, IH. reflexivity.
Qed.

Lemma Repeat_clean (c : Ascii.ascii) (s : string) (n : nat) :
  contains c s = false -> contains c (Repeat s n) = false.
Proof.
  intros Hs. induction n as [|n IH]; [reflexivity | ].
  cbn [Repeat]. rewrite contains_app, Hs, IH. reflexivity.
Qed.

(** X17. [Underline] of a title without newline is three pieces: the title,
    a rule of [=] bytes of the title's length, and the empty piece after the
    final newline. *)
Theorem Underline_three_lines (text : string) :
  contains newline text = false ->
  Split (Underline text) newline
  = [text; Repeat "=" (String.length text); ""]
  /\ String.length (Repeat "=" (String.length text)) = String.length text.
Proof.
  intros Ht. split.
  - unfold Underline. rewrite Split_snoc_sep, sapp_assoc.
    rewrite (Split_app_clean _ _ _ Ht), sapp_cons, sapp_nil_l, Split_sep.
    rewrite Split_clean by (apply Repeat_clean; reflexivity).
    rewrite sapp_nil_r. reflexivity.
  - rewrite Repeat_length. cbn [String.length]. lia.
Qed.

End Utils.


(** ** The further properties applied *)

Lemma demoSystem_wellFormed : wellFormed demoSystem.
Proof.
  unfold wellFormed. cbn.
  refine (conj _ (conj _ (conj _ (conj _ (conj _ (conj _ (conj _ _))))))); eauto;
    try discriminate; try (vm_compute; lia); try (intros Hin; inversion Hin).
Qed.

Lemma demoRepairing_wellFormed : wellFormed demoRepairing.
Proof.
  unfold wellFormed. cbn.
  refine (conj _ (conj _ (conj _ (conj _ (conj _ (conj _ (conj _ _))))))); eauto;
    try discriminate; try (vm_compute; lia).
  intros Hin%list_elem_of_singleton. discriminate.
Qed.

(** X1: the credential of [demoExpired] is empty, the configurer answers. *)
Lemma connectWithRetry_asks_configurer_once_witness :
  exists c' r evs,
    connectWithRetry (ext := demoExt) 51 worldRefresh demoExpired
      = Some (c', r, evs)
    /\ configurerCalls evs = 1%nat.
Proof.
  eexists _, _, _.
  refine ((fun H => conj H
             (proj1 (connectWithRetry_asks_configurer_once (ext := demoExt)
                       51 worldRefresh demoExpired _ _ _ H))) _).
  vm_compute. reflexivity.
Defined.

(** X2: an unreachable relay, then a 401: two dials. *)
Lemma connectWithRetry_dials_one_request_witness :
  exists c' r evs,
    connectWithRetry (ext := demoExt) 51 worldDownThen401 demoClient
      = Some (c', r, evs)
    /\ dialRequests evs =
         repeat (proxyAddr c',
                 [("Authorization"%string, String.append "Bearer " (token c'));
                  ("x-webhooktunnel-id"%string, id c')])
                (length (dialTimes evs)).
Proof.
  eexists _, _, _.
  refine ((fun H => conj H
             (connectWithRetry_dials_one_request (ext := demoExt)
                51 worldDownThen401 demoClient _ _ _ H)) _).
  vm_compute. reflexivity.
Defined.

(** X3: the relay answers 401 to the immediate dial. *)
Lemma connectWithRetry_AuthFailed_only_immediate_witness :
  exists c' evs,
    connectWithRetry (ext := demoExt) 51 (worldStatus 401) demoClient
      = Some (c', ConnErr ErrAuthFailed, evs)
    /\ length (dialTimes evs) = 1%nat.
Proof.
  eexists _, _.
  refine ((fun H => conj H
             (proj1 (connectWithRetry_AuthFailed_only_immediate (ext := demoExt)
                       51 (worldStatus 401) demoClient _ _ H))) _).
  vm_compute. reflexivity.
Defined.

(** X4: the relay answers 503, then accepts. *)
Lemma connectWithRetry_result_is_last_dial_witness :
  exists c' r evs,
    connectWithRetry (ext := demoExt) 51 world503ThenUp demoClient
      = Some (c', r, evs)
    /\ retryableFrom world503ThenUp 0 (pred (length (dialTimes evs))).
Proof.
  eexists _, _, _.
  refine ((fun H => conj H
             (proj1 (connectWithRetry_result_is_last_dial (ext := demoExt)
                       51 world503ThenUp demoClient _ _ _ H))) _).
  vm_compute. reflexivity.
Defined.

(** X5: an unreachable relay, dials of 7 nanoseconds. *)
Lemma connectWithRetry_respects_backoff_witness :
  exists c' r evs,
    connectWithRetry (ext := demoExt) 51 worldSlow demoClient
      = Some (c', r, evs)
    /\ (forall i t t',
          dialTimes evs !! i = Some t ->
          dialTimes evs !! S i = Some t' ->
          t + Z.of_nat (dialTime worldSlow i) + delayBefore (ext := demoExt) c' (S i) <= t'
          /\ t <= t').
Proof.
  eexists _, _, _.
  refine ((fun H => conj H
             (proj2 (connectWithRetry_respects_backoff (ext := demoExt)
                       51 worldSlow demoClient _ _ _ H))) _).
  vm_compute. reflexivity.
Defined.

(** X6: an unreachable relay; initial delay 10, doubling, budget 50. *)
Lemma connectWithRetry_retry_count_witness :
  exists c' r evs,
    connectWithRetry (ext := demoExt) 51 worldDown demoClient
      = Some (c', r, evs)
    /\ Z.of_nat (pred (length (dialTimes evs))) * InitialDelay (retry c')
       <= Z.max 0 (MaxElapsedTime (retry c')).
Proof.
  eexists _, _, _.
  refine ((fun H => conj H
             (connectWithRetry_retry_count (ext := demoExt)
                51 worldDown demoClient demoClient _ _ H eq_refl
                (fun d (Hd : 10 <= d) => _))) _).
  - cbn. lia.
  - vm_compute. reflexivity.
Defined.

(** X7: [New] over a relay that accepts the first dial. *)
Lemma New_returns_running_client_witness :
  exists cl evs,
    New (ext := demoExt) 0 (CfgOk demoConfig)
        (worldUp 1%nat "https://relay.example.com/worker-1")
      = Some (inl cl, evs)
    /\ state cl = stateRunning /\ closed cl = false /\ acceptErr cl = None.
Proof.
  eexists _, _.
  refine ((fun H =>
             match New_returns_running_client (ext := demoExt) 0 (CfgOk demoConfig)
                     (worldUp 1%nat "https://relay.example.com/worker-1") _ _ H
             with
             | conj H1 (conj H2 (conj H3 _)) => conj H (conj H1 (conj H2 H3))
             end) _).
  vm_compute. reflexivity.
Defined.

(** X8: a failed [Accept], a [Close], the repair and a new [Accept] after
    [New]. *)
Lemma reachable_wellFormed_witness :
  exists s' os evs,
    run (ext := demoExt)
        [CallAccept sessionDead; CallClose;
         RunTask 0 0 (worldUp 2%nat "https://relay.example.com/worker-1b");
         EnterAccept]
        (mkSystem demoClient [])
      = Some (s', os, evs)
    /\ wellFormed s'.
Proof.
  eexists _, _, _.
  refine ((fun H => conj H
             (reachable_wellFormed (ext := demoExt) 0 (CfgOk demoConfig)
                (worldUp 1%nat "https://relay.example.com/worker-1") demoClient _
                [CallAccept sessionDead; CallClose;
                 RunTask 0 0 (worldUp 2%nat "https://relay.example.com/worker-1b");
                 EnterAccept]
                _ _ _ New_builds_demoClient H)) _).
  vm_compute. reflexivity.
Defined.

(** X9: [demoSystem]. *)
Lemma wellFormed_never_panics_witness :
  is_Some (exec (ext := demoExt) (CallAccept sessionDead) demoSystem)
  /\ is_Some (exec (ext := demoExt) CallClose demoSystem)
  /\ is_Some (URL (client demoSystem)).
Proof.
  destruct (wellFormed_never_panics (ext := demoExt) demoSystem demoSystem_wellFormed)
    as (H1 & H2 & _ & _ & H5).
  auto.
Defined.

(** X10: a failed [Accept] on [demoSystem] returns an error and no stream. *)
Lemma Accept_returns_stream_or_error_witness :
  oneOf (None, Some ErrClientReconnecting).
Proof.
  exact (Accept_returns_stream_or_error (ext := demoExt)
           (CallAccept sessionDead) demoSystem _ _ _
           demoSystem_wellFormed eq_refl).
Defined.

(** X11: the repair of [demoRepairing] is answered 403. *)
Lemma failed_repair_is_final_witness :
  exists s1 evs1,
    exec (ext := demoExt) (RunTask 0 0 (worldStatus 403)) demoRepairing
      = Some (s1, ObsNone, evs1)
    /\ forall ls s2 os evs,
         run (ext := demoExt) ls s1 = Some (s2, os, evs) ->
         state (client s2) = stateBroken /\ Forall noStream os.
Proof.
  destruct (failed_repair_is_final (ext := demoExt) demoRepairing 0 0
              (worldStatus 403) demoBroken ErrRetryFailed
              [EvDial 0 "ws://relay.example.com"
                      [("Authorization"%string, "Bearer secret"%string);
                       ("x-webhooktunnel-id"%string, "worker-1"%string)]]
              demoRepairing_wellFormed eq_refl eq_refl)
    as (s1 & Hexec & Hfinal).
  exists s1. eexists. split; [exact Hexec | ].
  intros ls s2 os evs Hrun.
  destruct (Hfinal ls s2 os evs Hrun) as (H1 & _ & _ & _ & _ & _ & H7).
  auto.
Defined.

(** X12: three calls of [Accept] on [demoClient] with a live session. *)
Lemma Accept_healthy_session_witness :
  run (ext := demoExt) (repeat (CallAccept sessionLive) 3) demoSystem
  = Some (demoSystem, repeat (ObsAccept (Some 5%nat, None)) 3,
          repeat (EvSessionAccept (wsmux_Client 1%nat (mkWsmuxConfig 0))) 3).
Proof.
  exact (Accept_healthy_session (ext := demoExt) sessionLive demoClient []
           (wsmux_Client 1%nat (mkWsmuxConfig 0)) 5%nat 3
           eq_refl eq_refl eq_refl eq_refl).
Defined.

(** X13: [Close] on [demoSystem], then its clean-up. *)
Lemma clean_shutdown_is_final_witness :
  exists s1,
    run (ext := demoExt) [CallClose; RunTask 0 0 worldDown] demoSystem
    = Some (s1, [ObsClose None; ObsNone],
            [EvCloseChan; EvGo TaskCloseCleanup;
             EvSessionClose (wsmux_Client 1%nat (mkWsmuxConfig 0))])
    /\ acceptErr (client s1) = Some ErrClientClosed
    /\ forall ls s2 os evs,
         run (ext := demoExt) ls s1 = Some (s2, os, evs) -> s2 = s1 /\ evs = [].
Proof.
  assert (Hq : quiet demoSystem) by (split; intros Hin; inversion Hin).
  destruct (clean_shutdown_is_final (ext := demoExt) demoSystem
              (wsmux_Client 1%nat (mkWsmuxConfig 0)) 0 worldDown
              demoSystem_wellFormed eq_refl Hq eq_refl)
    as (s1 & Hrun & _ & He & _ & _ & Hfinal).
  exists s1. auto.
Defined.

(** X15: an indent of two spaces, a text of two lines that ends with a
    newline. *)
Lemma Indent_indents_every_line_witness :
  Split (Indent (String.append (String.append "a" (String newline "b"))
                               (String newline EmptyString)) "  ") newline
  = ["  a"%string; "  b"%string; ""%string].
Proof.
  exact (proj1 (Indent_indents_every_line "  " eq_refl)
           (String.append "a" (String newline "b"))).
Defined.

(** X16: a quote mark inside, two spaces outside. *)
Lemma Indent_twice_witness :
  Indent (Indent (String.append "a" (String newline "b")) "> ") "  "
  = Indent (String.append "a" (String newline "b")) "  > ".
Proof.
  exact (Indent_twice (String.append "a" (String newline "b")) "> " "  " eq_refl).
Defined.

(** X17: a title of five bytes. *)
Lemma Underline_three_lines_witness :
  Split (Underline "Title") newline = ["Title"%string; "====="%string; ""%string].
Proof.
  exact (proj1 (Underline_three_lines "Title" eq_refl)).
Defined.

